(** * Root finders of [src/roots/roots.cpp]

    A shallow embedding of the four solvers [bisection], [regula_falsi],
    [newton_raphson] and [secant], and the properties of their control flow,
    of their output cell and of their guards.

    - A C++ [double] is a primitive binary64 float ([PrimFloat.float]); the
      operators [+ - * /], [std::abs] and the comparisons [== < >] are the
      IEEE 754 ones, which is what the primitive operations compute (every
      operation rounded to binary64, to nearest, ties to even).
    - A [std::function<double(double)>] is a function [float -> float]: the
      solvers only ever call it.
    - The output parameter [double *root] is one memory cell: every solver
      takes the content of the cell before the call and gives back its content
      after the call, next to the returned [bool].
    - The loop counter [int count] is a [Z]; it stays below [2^31], so that
      [count++] never wraps and [count < 1e6] is the comparison of integers. *)

From Stdlib Require Import ZArith Bool Lia.
From Stdlib Require Import Floats.

Local Open Scope float_scope.
Set Warnings "-inexact-float".

(** ** Constants of the source *)

(** The literal [1e-6] of every convergence and stability test; as a
    [double] it is the nearest binary64 value, [0x1.0c6f7a0b5ed8dp-20]. *)
Definition tol : float := 1e-6.

(** The literal [1e6] of every loop condition [count < 1e6]. *)
Definition max_count : Z := 1000000.

(** ** Control flow of a loop body *)

(** What one execution of a loop body does: it leaves the function with
    [return r] while the cell [*root] holds [root], or it reaches the end of
    the body with the loop variables [s] and the cell holding [root]. *)
Inductive flow (St : Type) : Type :=
| Return_ (r : bool) (root : float)
| Next (s : St) (root : float).

Arguments Return_ {St} r root.
Arguments Next {St} s root.

(** What a call gives back: the returned boolean, the content of [*root]
    after the call, and (a ghost field) how many times the loop body ran. *)
Record result : Type := mkResult {
  ret : bool;
  root_after : float;
  iterations : Z
}.

Section ForLoop.
Context {St : Type}.
Variable body : St -> float -> flow St.

(** [for (int count = c0; count < 1e6; count++) body].  The recursion is on
    [fuel]; [None] means that the fuel ran out before the loop was left.
    [iters] counts the executions of the body so far.  The loop is left
    either by a [return] of the body or because the condition fails, in
    which case the loop variables and the cell are handed on. *)
Fixpoint for_loop (fuel : nat) (count : Z) (iters : Z) (s : St) (root : float)
  : option (flow St * Z) :=
  if (count <? max_count)%Z then
    match fuel with
    | O => None
    | S fuel' =>
        match body s root with
        | Return_ r root' => Some (Return_ r root', (iters + 1)%Z)
        | Next s' root' => for_loop fuel' (count + 1)%Z (iters + 1)%Z s' root'
        end
    end
  else Some (Next s root, iters).

(** A loop followed by the final [return false;] of every solver. *)
Definition loop_then_false (fuel : nat) (count : Z) (s : St) (root : float)
  : option result :=
  match for_loop fuel count 0%Z s root with
  | Some (Return_ r root', n) => Some (mkResult r root' n)
  | Some (Next _ root', n) => Some (mkResult false root' n)
  | None => None
  end.
End ForLoop.

(** Fuel that covers every loop of the file. *)
Definition enough_fuel : nat := Z.to_nat max_count.

(** ** bisection (lines 4-36) *)

(** The body of the loop, lines 19-31; the loop variables are [(a, b)]. *)
Definition bisection_body (f : float -> float) (s : float * float) (root : float)
  : flow (float * float) :=
  let '(a, b) := s in
  let c := (a + b) / 2 in
  if (abs (f c) <? tol) || (abs (b - a) <? tol) then Return_ true c
  else if 0 <? f a * f c then Next (c, b) root
  else Next (a, c) root.

Definition bisection_fuel (fuel : nat) (f : float -> float) (a b root : float)
  : option result :=
  if f a =? 0 then Some (mkResult true a 0)
  else if f b =? 0 then Some (mkResult true b 0)
  else if 0 <? f a * f b then Some (mkResult false root 0)
  else loop_then_false (bisection_body f) fuel 0 (a, b) root.

Definition bisection := bisection_fuel enough_fuel.

(** ** regula_falsi (lines 38-67) *)

(** The body of the loop, lines 50-62. *)
Definition regula_falsi_body (f : float -> float) (s : float * float) (root : float)
  : flow (float * float) :=
  let '(a, b) := s in
  let c := a - (f a * (b - a)) / (f b - f a) in
  if (abs (f c) <? tol) || (abs (b - a) <? tol) then Return_ true c
  else if 0 <? f a * f c then Next (c, b) root
  else Next (a, c) root.

Definition regula_falsi_fuel (fuel : nat) (f : float -> float) (a b root : float)
  : option result :=
  if 0 <=? f a * f b then Some (mkResult false root 0)
  else loop_then_false (regula_falsi_body f) fuel 0 (a, b) root.

Definition regula_falsi := regula_falsi_fuel enough_fuel.

(** ** newton_raphson (lines 69-108) and secant (lines 110-149)

    The two open methods divide behind a guard.  Their loop bodies take the
    division operator as a parameter [fdiv], which the solvers set to the
    division of doubles: an iteration that does not reach the division gives
    the same outcome whatever [fdiv] is. *)

Section Division.
Variable fdiv : float -> float -> float.

(** The body of the loop of [newton_raphson], lines 81-103; the loop
    variable is [xn], the bounds [a] and [b] are the parameters of the call. *)
Definition newton_raphson_body_with (f g : float -> float) (a b : float)
  (xn : float) (root : float) : flow float :=
  let fx := f xn in
  let dfx := g xn in
  if abs dfx <? tol then Return_ false root
  else
    let next_xn := xn - fdiv fx dfx in
    if (next_xn <? a) || (b <? next_xn) then Return_ false root
    else if abs (next_xn - xn) <? tol then Return_ true next_xn
    else Next next_xn root.

(** The body of the loop of [secant], lines 121-144; the loop variables are
    [(prev_xn, xn)]. *)
Definition secant_body_with (f : float -> float) (a b : float)
  (s : float * float) (root : float) : flow (float * float) :=
  let '(prev_xn, xn) := s in
  let fxn := f xn in
  let fprev_xn := f prev_xn in
  if abs (fxn - fprev_xn) <? tol then Return_ false root
  else
    let next_xn := xn - fdiv (fxn * (xn - prev_xn)) (fxn - fprev_xn) in
    if (next_xn <? a) || (b <? next_xn) then Return_ false root
    else if abs (next_xn - xn) <? tol then Return_ true next_xn
    else Next (xn, next_xn) root.

End Division.

Definition newton_raphson_body := newton_raphson_body_with PrimFloat.div.

(** [xn] starts as the guess [c]; the loop starts at [count = 1]. *)
Definition newton_raphson_fuel (fuel : nat) (f g : float -> float)
  (a b c root : float) : option result :=
  loop_then_false (newton_raphson_body f g a b) fuel 1 c root.

Definition newton_raphson := newton_raphson_fuel enough_fuel.

Definition secant_body := secant_body_with PrimFloat.div.

(** [prev_xn] starts as [a] and [xn] as [b]; the parameter [c] is not read. *)
Definition secant_fuel (fuel : nat) (f : float -> float)
  (a b c root : float) : option result :=
  loop_then_false (secant_body f a b) fuel 0 (a, b) root.

Definition secant := secant_fuel enough_fuel.

(** * Predicates and functions of the statements *)

(** A loop body that writes the cell [*root] only before [return true]. *)
Definition writes_on_success_only {St : Type} (body : St -> float -> flow St)
  : Prop :=
  forall (s : St) (root : float),
    match body s root with
    | Return_ true _ => True
    | Return_ false root' => root' = root
    | Next _ root' => root' = root
    end.

(** The test of lines 93 and 133 negated: [x] is neither below [a] nor
    above [b]. *)
Definition within (a b x : float) : bool := negb ((x <? a) || (b <? x)).

(** ** The iterations in the words of the specification

    What an iteration does to the loop variables, written apart from the
    control flow of the loop: a test that tells whether the iteration goes on
    to the next one, and the loop variables of the next one.  The theorems
    relate the results of the solvers to the sequence these give. *)

Section Sequence.
Context {St : Type}.
Variable next : St -> St.
Variable goes_on : St -> bool.

(** The loop variables after [k] iterations. *)
Fixpoint after (k : nat) (s : St) : St :=
  match k with
  | O => s
  | S k' => after k' (next s)
  end.

(** The first [k] iterations all go on to the next one. *)
Fixpoint goes_on_for (k : nat) (s : St) : bool :=
  match k with
  | O => true
  | S k' => goes_on s && goes_on_for k' (next s)
  end.
End Sequence.

(** Bisection: the midpoint [c = (a + b) / 2]; success when
    [|f(c)| < 1e-6] or [|b - a| < 1e-6]; otherwise [a] is replaced with [c]
    if [f(a) * f(c) > 0], else [b] is. *)
Definition midpoint (s : float * float) : float :=
  let '(a, b) := s in (a + b) / 2.

Definition bisection_stops (f : float -> float) (s : float * float) : bool :=
  let '(a, b) := s in
  (abs (f (midpoint s)) <? tol) || (abs (b - a) <? tol).

Definition bisection_narrow (f : float -> float) (s : float * float)
  : float * float :=
  let '(a, b) := s in
  if 0 <? f a * f (midpoint s) then (midpoint s, b) else (a, midpoint s).

(** Regula falsi: the same with [c = a - f(a) * (b - a) / (f(b) - f(a))]. *)
Definition false_position (f : float -> float) (s : float * float) : float :=
  let '(a, b) := s in a - f a * (b - a) / (f b - f a).

Definition regula_falsi_stops (f : float -> float) (s : float * float) : bool :=
  let '(a, b) := s in
  (abs (f (false_position f s)) <? tol) || (abs (b - a) <? tol).

Definition regula_falsi_narrow (f : float -> float) (s : float * float)
  : float * float :=
  let '(a, b) := s in
  if 0 <? f a * f (false_position f s) then (false_position f s, b)
  else (a, false_position f s).

(** Newton-Raphson: [x_{n+1} = x_n - f(x_n) / g(x_n)].  The iteration goes
    on when [|g(x_n)| < 1e-6] is false, [x_{n+1}] is neither below [a] nor
    above [b], and [|x_{n+1} - x_n| < 1e-6] is false. *)
Definition newton_step (f g : float -> float) (xn : float) : float :=
  xn - f xn / g xn.

Definition newton_goes_on (f g : float -> float) (a b xn : float) : bool :=
  negb (abs (g xn) <? tol)
  && within a b (newton_step f g xn)
  && negb (abs (newton_step f g xn - xn) <? tol).

(** Secant: [x_next = x - f(x) * (x - prev_x) / (f(x) - f(prev_x))], and
    the pair [(prev_x, x)] becomes [(x, x_next)]. *)
Definition secant_step (f : float -> float) (s : float * float) : float :=
  let '(prev_x, x) := s in x - f x * (x - prev_x) / (f x - f prev_x).

Definition secant_advance (f : float -> float) (s : float * float)
  : float * float :=
  (snd s, secant_step f s).

Definition secant_goes_on (f : float -> float) (a b : float)
  (s : float * float) : bool :=
  let '(prev_x, x) := s in
  negb (abs (f x - f prev_x) <? tol)
  && within a b (secant_step f s)
  && negb (abs (secant_step f s - x) <? tol).

(** ** Views of a double through its [spec_float] *)

(** Strictly negative, strictly positive and zero views. *)
Definition SFneg (x : spec_float) : bool :=
  match x with
  | S754_infinity true | S754_finite true _ _ => true
  | _ => false
  end.

Definition SFpos (x : spec_float) : bool :=
  match x with
  | S754_infinity false | S754_finite false _ _ => true
  | _ => false
  end.

Definition SFzero (x : spec_float) : bool :=
  match x with
  | S754_zero _ => true
  | _ => false
  end.

(** A double that is neither a zero nor NaN. *)
Definition nonzero_number (p : float) : bool := (p <? 0) || (0 <? p).

(** ** The order of the doubles that are numbers

    A double that is not NaN has a key, a triple of integers compared
    lexicographically: the class (negative infinity, negative, zero,
    positive, positive infinity), then the exponent and the mantissa, both
    negated for a negative number.  The two zeros share one key. *)

Definition SFkey (x : spec_float) : option (Z * Z * Z) :=
  match x with
  | S754_nan => None
  | S754_zero _ => Some (0, 0, 0)%Z
  | S754_infinity false => Some (2, 0, 0)%Z
  | S754_infinity true => Some (-2, 0, 0)%Z
  | S754_finite false m e => Some (1, e, Zpos m)%Z
  | S754_finite true m e => Some (-1, - e, Zneg m)%Z
  end.

Definition lex3 (k1 k2 : Z * Z * Z) : comparison :=
  let '(c1, e1, m1) := k1 in
  let '(c2, e2, m2) := k2 in
  match (c1 ?= c2)%Z with
  | Eq => match (e1 ?= e2)%Z with
          | Eq => (m1 ?= m2)%Z
          | c => c
          end
  | c => c
  end.

Definition key_lt (k1 k2 : Z * Z * Z) : Prop :=
  let '(c1, e1, m1) := k1 in
  let '(c2, e2, m2) := k2 in
  (c1 < c2 \/ (c1 = c2 /\ (e1 < e2 \/ (e1 = e2 /\ m1 < m2))))%Z.

(** The iterate of an iteration of [newton_raphson] is the guess or came
    through the bounds test. *)
Definition newton_iterate (a b c : float) (xn : float) : Prop :=
  xn = c \/ within a b xn = true.

(** The pair of an iteration of [secant] is the pair of the bounds or has
    a current point that came through the bounds test. *)
Definition secant_pair (a b : float) (s : float * float) : Prop :=
  s = (a, b) \/ within a b (snd s) = true.

(** A zero or a finite number: neither an infinity nor NaN. *)
Definition SFfin (x : spec_float) : bool :=
  match x with
  | S754_zero _ | S754_finite _ _ _ => true
  | _ => false
  end.

(** The value of [f] at the left end of the bracket [s] is [< 0], or is
    [> 0], exactly when it is at [a]. *)
Definition left_sign_kept (f : float -> float) (a : float) (s : float * float)
  : Prop :=
  (f (fst s) <? 0) = (f a <? 0) /\ (0 <? f (fst s)) = (0 <? f a).

(** ** Functions of the examples *)

(** [x * x - 2], the function of the examples. *)
Definition sq2 (x : float) : float := x * x - 2.

(** A step from [-1] to [1] at [x0].  On the bracket [(1e16, 1e16 + 2)] of
    two neighbouring doubles, with the step at the upper end, the midpoint
    rounds to [1e16], the bracket never narrows, and the loop of [bisection]
    runs its 1,000,000 iterations. *)
Definition step_at (x0 : float) (x : float) : float :=
  if x <? x0 then -1 else 1.

(** [x * 1e200 * 1e200]: zero at [0], and beyond the range of a double at
    [2], where the value is [infinity]. *)
Definition overflowing (x : float) : float := x * 1e200 * 1e200.

(** [(x - 1) * sqrt ((x - 1)^2 - 0.25)], a number for [|x - 1| >= 0.5] and
    NaN, the square root of a negative number, in between. *)
Definition gap_around_1 (x : float) : float :=
  (x - 1) * sqrt ((x - 1) * (x - 1) - 0.25).

(** A step from [1e10] through [1e-3] down to [-1e-322]. *)
Definition tiny_step (x : float) : float :=
  if x <? 0.5 then 1e10 else if x <? 1.5 then 1e-3 else -1e-322.

(** * Facts on binary64 arithmetic

    The primitive operations are specified by [FloatAxioms] over the
    [spec_float] view of a float; the facts below are the few the guards of
    the solvers need: what [x < 0], [0 < x] and [x == 0] say of [x], and the
    sign of a product. *)

Section FloatFacts.

Lemma Prim2SF_zero : Prim2SF 0 = S754_zero false.
Proof. reflexivity. Qed.

Lemma ltb_zero_neg (x : float) : (x <? 0) = SFneg (Prim2SF x).
Proof.
  rewrite ltb_spec, Prim2SF_zero.
  destruct (Prim2SF x) as [s | s | | s m e]; try destruct s; reflexivity.
Qed.

Lemma ltb_zero_pos (x : float) : (0 <? x) = SFpos (Prim2SF x).
Proof.
  rewrite ltb_spec, Prim2SF_zero.
  destruct (Prim2SF x) as [s | s | | s m e]; try destruct s; reflexivity.
Qed.

Lemma eqb_zero (x : float) : (x =? 0) = SFzero (Prim2SF x).
Proof.
  rewrite eqb_spec, Prim2SF_zero.
  destruct (Prim2SF x) as [s | s | | s m e]; try destruct s; reflexivity.
Qed.

Lemma leb_zero (x : float) : (0 <=? x) = SFzero (Prim2SF x) || SFpos (Prim2SF x).
Proof.
  rewrite leb_spec, Prim2SF_zero.
  destruct (Prim2SF x) as [s | s | | s m e]; try destruct s; reflexivity.
Qed.

(** Rounding keeps the sign it is given: the rounded value is a zero, a
    finite number or an infinity of that sign. *)
Lemma binary_round_aux_sign (sx : bool) (mx ex : Z) (lx : location) :
  let r := binary_round_aux prec emax sx mx ex lx in
  (SFneg r = true -> sx = true) /\ (SFpos r = true -> sx = false).
Proof.
  unfold binary_round_aux.
  destruct (shr_fexp prec emax mx ex lx) as [mrs' e'].
  destruct (shr_fexp prec emax _ e' loc_Exact) as [mrs'' e''].
  destruct (shr_m mrs'') as [| m | m].
  - destruct sx; split; simpl; congruence.
  - destruct (Z.leb e'' (Z.sub emax prec)); destruct sx; simpl; split;
      congruence.
  - split; discriminate.
Qed.

(** A strictly negative product has factors of strictly opposite signs. *)
Lemma SFmul_neg (x y : spec_float) :
  SFneg (SF64mul x y) = true ->
  (SFneg x && SFpos y) || (SFpos x && SFneg y) = true.
Proof.
  destruct x as [sx | sx | | sx mx ex], y as [sy | sy | | sy my ey];
    try discriminate;
    try (destruct sx, sy; simpl; congruence).
  unfold SF64mul, SFmul. intros H.
  apply (binary_round_aux_sign (xorb sx sy)) in H.
  destruct sx, sy; simpl in *; congruence.
Qed.

(** A strictly positive product has factors of the same strict sign. *)
Lemma SFmul_pos (x y : spec_float) :
  SFpos (SF64mul x y) = true ->
  (SFneg x && SFneg y) || (SFpos x && SFpos y) = true.
Proof.
  destruct x as [sx | sx | | sx mx ex], y as [sy | sy | | sy my ey];
    try discriminate;
    try (destruct sx, sy; simpl; congruence).
  unfold SF64mul, SFmul. intros H.
  apply (binary_round_aux_sign (xorb sx sy)) in H.
  destruct sx, sy; simpl in *; congruence.
Qed.

(** A product that is [< 0]: one factor is [< 0] and the other [> 0]. *)
Lemma mul_neg_signs (x y : float) :
  (x * y <? 0) = true ->
  ((x <? 0) && (0 <? y)) || ((0 <? x) && (y <? 0)) = true.
Proof.
  rewrite !ltb_zero_neg, !ltb_zero_pos, mul_spec. apply SFmul_neg.
Qed.

(** A product that is [> 0]: both factors are [< 0] or both are [> 0]. *)
Lemma mul_pos_signs (x y : float) :
  (0 <? x * y) = true ->
  ((x <? 0) && (y <? 0)) || ((0 <? x) && (0 <? y)) = true.
Proof.
  rewrite !ltb_zero_neg, !ltb_zero_pos, mul_spec. apply SFmul_pos.
Qed.

(** No double is both [< 0] and [> 0]. *)
Lemma neg_pos_excl (x : float) : (x <? 0) && (0 <? x) = false.
Proof.
  rewrite ltb_zero_neg, ltb_zero_pos.
  destruct (Prim2SF x) as [s | s | | s m e]; try destruct s; reflexivity.
Qed.

(** A finite double is a zero or a finite number, not an infinity nor NaN. *)
Lemma is_finite_view (x : float) :
  is_finite x = true ->
  match Prim2SF x with
  | S754_zero _ | S754_finite _ _ _ => True
  | _ => False
  end.
Proof.
  unfold is_finite, is_nan, is_infinity.
  rewrite !eqb_spec, abs_spec.
  destruct (Prim2SF x) as [s | s | | s m e]; try exact (fun _ => I).
  - destruct s; discriminate.
  - discriminate.
Qed.

(** Zero times a finite double is a zero, which is [>= 0]. *)
Lemma zero_mul_finite (x y : float) :
  (x =? 0) = true -> is_finite y = true ->
  (0 <=? x * y) = true /\ (0 <=? y * x) = true.
Proof.
  rewrite eqb_zero, !leb_zero, !mul_spec. intros Hx Hy.
  apply is_finite_view in Hy.
  destruct (Prim2SF x) as [sx | sx | | sx mx ex]; try discriminate.
  destruct (Prim2SF y) as [sy | sy | | sy my ey]; try contradiction;
    split; reflexivity.
Qed.

End FloatFacts.

(** * Facts on the loop *)

Section ForLoopFacts.
Context {St : Type}.
Variable body : St -> float -> flow St.

(** One turn of the loop while the condition [count < 1e6] holds. *)
Lemma for_loop_turn (fuel : nat) (count iters : Z) (s : St) (root : float) :
  (count < max_count)%Z ->
  for_loop body (S fuel) count iters s root =
  match body s root with
  | Return_ r root' => Some (Return_ r root', (iters + 1)%Z)
  | Next s' root' => for_loop body fuel (count + 1) (iters + 1) s' root'
  end.
Proof.
  intros Hc. apply Z.ltb_lt in Hc. simpl. rewrite Hc. reflexivity.
Qed.

(** The loop is left once the condition fails. *)
Lemma for_loop_exit (fuel : nat) (count iters : Z) (s : St) (root : float) :
  (max_count <= count)%Z ->
  for_loop body fuel count iters s root = Some (Next s root, iters).
Proof.
  intros Hc. apply Z.ltb_ge in Hc. destruct fuel; simpl; rewrite Hc; reflexivity.
Qed.

(** With one unit of fuel per remaining value of [count] the loop is left,
    after at most that many executions of the body. *)
Lemma for_loop_total (fuel : nat) :
  forall (count iters : Z) (s : St) (root : float),
    (max_count - count <= Z.of_nat fuel)%Z ->
    exists fl n,
      for_loop body fuel count iters s root = Some (fl, n) /\
      (iters <= n <= iters + Z.max 0 (max_count - count))%Z.
Proof.
  induction fuel as [| fuel IH]; intros count iters s root Hfuel.
  - exists (Next s root), iters. split; [apply for_loop_exit|]; lia.
  - destruct (Z.lt_ge_cases count max_count) as [Hlt | Hge].
    + rewrite for_loop_turn by assumption.
      destruct (body s root) as [r root' | s' root'].
      * exists (Return_ r root'), (iters + 1)%Z. split; [reflexivity | lia].
      * destruct (IH (count + 1)%Z (iters + 1)%Z s' root') as (fl & n & E & B);
          [lia|].
        exists fl, n. split; [exact E | lia].
    + exists (Next s root), iters. split; [apply for_loop_exit; exact Hge | lia].
Qed.

(** More fuel does not change what the loop gives. *)
Lemma for_loop_more_fuel (fuel : nat) :
  forall (count iters : Z) (s : St) (root : float) (out : flow St * Z) (fuel' : nat),
    for_loop body fuel count iters s root = Some out ->
    (fuel <= fuel')%nat ->
    for_loop body fuel' count iters s root = Some out.
Proof.
  induction fuel as [| fuel IH]; intros count iters s root out fuel' E Hle.
  - destruct (Z.lt_ge_cases count max_count) as [Hlt | Hge].
    + apply Z.ltb_lt in Hlt. simpl in E. rewrite Hlt in E. discriminate.
    + rewrite for_loop_exit in * by assumption. exact E.
  - destruct (Z.lt_ge_cases count max_count) as [Hlt | Hge].
    + destruct fuel' as [| fuel']; [lia|].
      rewrite for_loop_turn in * by assumption.
      destruct (body s root) as [r root' | s' root']; [exact E|].
      apply IH; [exact E | lia].
    + rewrite for_loop_exit in * by assumption. exact E.
Qed.

Lemma for_loop_frame (Hbody : writes_on_success_only body) (fuel : nat) :
  forall (count iters : Z) (s : St) (root : float) (fl : flow St) (n : Z),
    for_loop body fuel count iters s root = Some (fl, n) ->
    match fl with
    | Return_ true _ => True
    | Return_ false root' => root' = root
    | Next _ root' => root' = root
    end.
Proof.
  induction fuel as [| fuel IH]; intros count iters s root fl n E.
  - simpl in E. destruct (count <? max_count)%Z; [discriminate|].
    injection E as <- _. reflexivity.
  - simpl in E. destruct (count <? max_count)%Z.
    + specialize (Hbody s root).
      destruct (body s root) as [r root' | s' root'].
      * injection E as <- _. exact Hbody.
      * subst root'. exact (IH _ _ _ _ _ _ E).
    + injection E as <- _. reflexivity.
Qed.

Lemma loop_then_false_frame (Hbody : writes_on_success_only body)
  (fuel : nat) (count : Z) (s : St) (root : float) (r : result) :
  loop_then_false body fuel count s root = Some r ->
  ret r = false -> root_after r = root.
Proof.
  unfold loop_then_false. intros E Hr.
  destruct (for_loop body fuel count 0 s root) as [[fl n] |] eqn:L;
    [| discriminate].
  apply (for_loop_frame Hbody) in L.
  destruct fl as [b root' | s' root']; injection E as <-; simpl in *.
  - subst b. exact L.
  - exact L.
Qed.

Lemma loop_then_false_total (fuel : nat) (count : Z) (s : St) (root : float) :
  (max_count - count <= Z.of_nat fuel)%Z ->
  exists r,
    loop_then_false body fuel count s root = Some r /\
    (0 <= iterations r <= Z.max 0 (max_count - count))%Z.
Proof.
  intros Hfuel. unfold loop_then_false.
  destruct (for_loop_total fuel count 0 s root Hfuel) as (fl & n & E & B).
  rewrite E.
  destruct fl as [b root' | s' root']; eexists; (split; [reflexivity|]);
    cbn [iterations]; lia.
Qed.

Lemma loop_then_false_more_fuel (fuel fuel' : nat) (count : Z) (s : St)
  (root : float) (r : result) :
  loop_then_false body fuel count s root = Some r ->
  (fuel <= fuel')%nat ->
  loop_then_false body fuel' count s root = Some r.
Proof.
  unfold loop_then_false. intros E Hle.
  destruct (for_loop body fuel count 0 s root) as [out |] eqn:L; [| discriminate].
  rewrite (for_loop_more_fuel fuel _ _ _ _ _ fuel' L Hle). exact E.
Qed.

End ForLoopFacts.

(** * The loop along the sequence of its iterations *)

Section ForLoopRun.
Context {St : Type}.
Variable body : St -> float -> flow St.
Variable next : St -> St.
Variable goes_on : St -> bool.

(** The body goes on to the loop variables [next s] exactly when
    [goes_on s], and returns otherwise. *)
Hypothesis body_goes_on :
  forall (s : St) (root : float),
    goes_on s = true -> body s root = Next (next s) root.
Hypothesis body_returns :
  forall (s : St) (root : float),
    goes_on s = false -> exists r x, body s root = Return_ r x.

(** [k] iterations that go on, within the budget and the fuel, bring the
    loop to the loop variables [after k]. *)
Lemma for_loop_run (k : nat) :
  forall (fuel : nat) (count iters : Z) (s : St) (root : float),
    goes_on_for next goes_on k s = true ->
    (count + Z.of_nat k <= max_count)%Z ->
    for_loop body (k + fuel) count iters s root =
    for_loop body fuel (count + Z.of_nat k) (iters + Z.of_nat k)
      (after next k s) root.
Proof.
  induction k as [| k IH]; intros fuel count iters s root G Hc.
  - cbn [after Nat.add]. rewrite !Z.add_0_r. reflexivity.
  - cbn [goes_on_for] in G. apply andb_true_iff in G. destruct G as [G0 G].
    cbn [Nat.add after]. rewrite for_loop_turn by lia.
    rewrite (body_goes_on s root G0).
    rewrite (IH fuel (count + 1)%Z (iters + 1)%Z (next s) root G) by lia.
    f_equal; lia.
Qed.

(** Conversely, a loop that is left went through iterations that went on,
    up to the one that returned or up to the end of the budget. *)
Lemma for_loop_trace (fuel : nat) :
  forall (count iters : Z) (s : St) (root : float) (fl : flow St) (n : Z),
    for_loop body fuel count iters s root = Some (fl, n) ->
    exists k : nat,
      goes_on_for next goes_on k s = true /\
      match fl with
      | Return_ r x =>
          goes_on (after next k s) = false /\
          body (after next k s) root = Return_ r x /\
          n = (iters + Z.of_nat k + 1)%Z /\
          (count + Z.of_nat k < max_count)%Z
      | Next s' root' =>
          s' = after next k s /\ root' = root /\
          n = (iters + Z.of_nat k)%Z /\
          Z.of_nat k = Z.max 0 (max_count - count)
      end.
Proof.
  induction fuel as [| fuel IH]; intros count iters s root fl n E.
  - simpl in E. destruct (count <? max_count)%Z eqn:C; [discriminate|].
    apply Z.ltb_ge in C. injection E as <- <-.
    exists O. cbn [after goes_on_for]. repeat split; lia.
  - destruct (Z.lt_ge_cases count max_count) as [Hlt | Hge].
    + rewrite for_loop_turn in E by exact Hlt.
      destruct (goes_on s) eqn:G.
      * rewrite (body_goes_on s root G) in E.
        destruct (IH _ _ _ _ _ _ E) as (k & Gk & Hk).
        exists (S k). cbn [goes_on_for after]. rewrite G, Gk.
        split; [reflexivity|].
        destruct fl as [r x | s' root'].
        -- destruct Hk as (H1 & H2 & H3 & H4). repeat split; auto; lia.
        -- destruct Hk as (H1 & H2 & H3 & H4). repeat split; auto; lia.
      * destruct (body_returns s root G) as (r & x & B). rewrite B in E.
        injection E as <- <-. exists O. cbn [after goes_on_for].
        repeat split; auto; lia.
    + rewrite for_loop_exit in E by exact Hge. injection E as <- <-.
      exists O. cbn [after goes_on_for]. repeat split; lia.
Qed.

(** What holds of the first loop variables and is kept by every iteration
    that goes on holds along the sequence. *)
Lemma after_invariant (Inv : St -> Prop)
  (Inv_next : forall s, Inv s -> goes_on s = true -> Inv (next s)) (k : nat) :
  forall s, Inv s -> goes_on_for next goes_on k s = true -> Inv (after next k s).
Proof.
  induction k as [| k IH]; intros s HI G; [exact HI|].
  cbn [goes_on_for] in G. apply andb_true_iff in G. destruct G as [G0 G].
  cbn [after]. apply IH; [apply Inv_next; assumption | exact G].
Qed.

(** The result of a loop followed by [return false], when the iteration
    after [k] iterations that go on returns. *)
Lemma loop_then_false_run (k fuel : nat) (count : Z) (s : St) (root : float)
  (r : bool) (x : float) :
  goes_on_for next goes_on k s = true ->
  (count + Z.of_nat k < max_count)%Z ->
  body (after next k s) root = Return_ r x ->
  (k < fuel)%nat ->
  loop_then_false body fuel count s root
  = Some (mkResult r x (Z.of_nat k + 1)).
Proof.
  intros G Hc B Hf.
  apply (loop_then_false_more_fuel body (k + 1)); [| lia].
  unfold loop_then_false.
  rewrite (for_loop_run k 1 count 0 s root G) by lia.
  rewrite for_loop_turn by lia. rewrite B. reflexivity.
Qed.

(** Conversely, the iterations behind the result of such a loop. *)
Lemma loop_then_false_trace (fuel : nat) (count : Z) (s : St) (root : float)
  (r : result) :
  loop_then_false body fuel count s root = Some r ->
  exists k : nat,
    goes_on_for next goes_on k s = true /\
    ((goes_on (after next k s) = false /\
      body (after next k s) root = Return_ (ret r) (root_after r) /\
      iterations r = (Z.of_nat k + 1)%Z /\
      (count + Z.of_nat k < max_count)%Z) \/
     (ret r = false /\ root_after r = root /\
      iterations r = Z.of_nat k /\
      Z.of_nat k = Z.max 0 (max_count - count))).
Proof.
  unfold loop_then_false. intros E.
  destruct (for_loop body fuel count 0 s root) as [[fl n] |] eqn:L;
    [| discriminate].
  apply for_loop_trace in L. destruct L as (k & G & H).
  exists k. split; [exact G|].
  destruct fl as [b x | s' root']; injection E as <-;
    cbn [ret root_after iterations].
  - left. destruct H as (H1 & H2 & H3 & H4). repeat split; auto; lia.
  - right. destruct H as (H1 & H2 & H3 & H4). repeat split; auto; lia.
Qed.

End ForLoopRun.

(** ** The bodies along the sequences *)

Lemma bisection_body_goes_on (f : float -> float) (s : float * float)
  (root : float) :
  negb (bisection_stops f s) = true ->
  bisection_body f s root = Next (bisection_narrow f s) root.
Proof.
  destruct s as [a b].
  unfold bisection_body, bisection_stops, bisection_narrow, midpoint.
  intros H. apply negb_true_iff in H. rewrite H.
  destruct (0 <? f a * f ((a + b) / 2)); reflexivity.
Qed.

Lemma bisection_body_stops (f : float -> float) (s : float * float)
  (root : float) :
  bisection_stops f s = true ->
  bisection_body f s root = Return_ true (midpoint s).
Proof.
  destruct s as [a b].
  unfold bisection_body, bisection_stops, midpoint. intros ->. reflexivity.
Qed.

Lemma regula_falsi_body_goes_on (f : float -> float) (s : float * float)
  (root : float) :
  negb (regula_falsi_stops f s) = true ->
  regula_falsi_body f s root = Next (regula_falsi_narrow f s) root.
Proof.
  destruct s as [a b].
  unfold regula_falsi_body, regula_falsi_stops, regula_falsi_narrow,
    false_position.
  intros H. apply negb_true_iff in H. rewrite H.
  destruct (0 <? f a * f (a - f a * (b - a) / (f b - f a))); reflexivity.
Qed.

Lemma regula_falsi_body_stops (f : float -> float) (s : float * float)
  (root : float) :
  regula_falsi_stops f s = true ->
  regula_falsi_body f s root = Return_ true (false_position f s).
Proof.
  destruct s as [a b].
  unfold regula_falsi_body, regula_falsi_stops, false_position.
  intros ->. reflexivity.
Qed.

(** The body of [newton_raphson] as three tests on the step. *)
Lemma newton_raphson_body_view (f g : float -> float) (a b xn root : float) :
  newton_raphson_body f g a b xn root =
  if abs (g xn) <? tol then Return_ false root
  else if negb (within a b (newton_step f g xn)) then Return_ false root
  else if abs (newton_step f g xn - xn) <? tol
       then Return_ true (newton_step f g xn)
       else Next (newton_step f g xn) root.
Proof.
  unfold newton_raphson_body, newton_raphson_body_with, within, newton_step.
  rewrite negb_involutive. reflexivity.
Qed.

Lemma newton_raphson_body_goes_on (f g : float -> float) (a b xn root : float) :
  newton_goes_on f g a b xn = true ->
  newton_raphson_body f g a b xn root = Next (newton_step f g xn) root.
Proof.
  rewrite newton_raphson_body_view. unfold newton_goes_on.
  rewrite !andb_true_iff, !negb_true_iff. intros [[-> ->] ->]. reflexivity.
Qed.

Lemma newton_raphson_body_halts (f g : float -> float) (a b xn root : float) :
  newton_goes_on f g a b xn = false ->
  exists r x, newton_raphson_body f g a b xn root = Return_ r x.
Proof.
  rewrite newton_raphson_body_view. unfold newton_goes_on.
  destruct (abs (g xn) <? tol); [intros _; do 2 eexists; reflexivity|].
  destruct (within a b (newton_step f g xn));
    [| intros _; do 2 eexists; reflexivity].
  destruct (abs (newton_step f g xn - xn) <? tol);
    [intros _; do 2 eexists; reflexivity | intros H; discriminate H].
Qed.

(** The body of [secant] as three tests on the step. *)
Lemma secant_body_view (f : float -> float) (a b : float)
  (s : float * float) (root : float) :
  secant_body f a b s root =
  if abs (f (snd s) - f (fst s)) <? tol then Return_ false root
  else if negb (within a b (secant_step f s)) then Return_ false root
  else if abs (secant_step f s - snd s) <? tol
       then Return_ true (secant_step f s)
       else Next (secant_advance f s) root.
Proof.
  destruct s as [prev_x x].
  unfold secant_body, secant_body_with, within, secant_advance, secant_step.
  cbn [fst snd]. rewrite negb_involutive. reflexivity.
Qed.

Lemma secant_body_goes_on (f : float -> float) (a b : float)
  (s : float * float) (root : float) :
  secant_goes_on f a b s = true ->
  secant_body f a b s root = Next (secant_advance f s) root.
Proof.
  rewrite secant_body_view. destruct s as [prev_x x].
  unfold secant_goes_on. cbn [fst snd].
  rewrite !andb_true_iff, !negb_true_iff. intros [[-> ->] ->]. reflexivity.
Qed.

Lemma secant_body_halts (f : float -> float) (a b : float)
  (s : float * float) (root : float) :
  secant_goes_on f a b s = false ->
  exists r x, secant_body f a b s root = Return_ r x.
Proof.
  rewrite secant_body_view. destruct s as [prev_x x].
  unfold secant_goes_on. cbn [fst snd].
  destruct (abs (f x - f prev_x) <? tol);
    [intros _; do 2 eexists; reflexivity|].
  destruct (within a b (secant_step f (prev_x, x)));
    [| intros _; do 2 eexists; reflexivity].
  destruct (abs (secant_step f (prev_x, x) - x) <? tol);
    [intros _; do 2 eexists; reflexivity | intros H; discriminate H].
Qed.

Lemma bracketing_body_halts (stops : float * float -> bool)
  (body : float * float -> float -> flow (float * float))
  (value : float * float -> float) :
  (forall s root, stops s = true -> body s root = Return_ true (value s)) ->
  forall s root, negb (stops s) = false -> exists r x, body s root = Return_ r x.
Proof.
  intros H s root N. apply negb_false_iff in N. rewrite (H s root N).
  do 2 eexists; reflexivity.
Qed.

Lemma enough_fuel_above (k : nat) :
  (Z.of_nat k < max_count)%Z -> (k < enough_fuel)%nat.
Proof. unfold enough_fuel, max_count. lia. Qed.

(** One turn of a loop whose condition holds, then the body unfolded. *)
Ltac one_turn Hc := rewrite for_loop_turn by exact Hc.

(** * The iterations of the solvers *)

(** C1.  A call of [bisection] that passes the three checks made before the
    loop enters it with [count = 0] and the bracket [(a, b)].  An iteration
    of the loop (the condition [count < 1e6] holding) on a bracket [(a, b)]
    takes the midpoint [c = (a + b) / 2].  It returns [true] with
    [*root = c] when [|f(c)| < 1e-6], and also when [|b - a| < 1e-6], each
    test alone being enough; when both fail, the next iteration runs on
    [(c, b)] if [f(a) * f(c) > 0] and on [(a, c)] otherwise.  The call
    returns what these iterations give: when the brackets narrowed in this
    way from [(a, b)] fail both tests [k] times and the next one passes one
    of them, within the budget, [bisection] returns [true] with [*root] the
    midpoint of that bracket, after [k + 1] iterations. *)
Theorem bisection_iteration (f : float -> float) (a b root : float)
  (fuel : nat) (count iters : Z) (k : nat) :
  (count < max_count)%Z ->
  let c := (a + b) / 2 in
  let turn := for_loop (bisection_body f) (S fuel) count iters (a, b) root in
  let next_turn s :=
    for_loop (bisection_body f) fuel (count + 1) (iters + 1) s root in
  let bracket := after (bisection_narrow f) k (a, b) in
  ((f a =? 0) = false -> (f b =? 0) = false -> (0 <? f a * f b) = false ->
   bisection f a b root =
   loop_then_false (bisection_body f) enough_fuel 0 (a, b) root) /\
  ((abs (f c) <? tol) = true -> turn = Some (Return_ true c, (iters + 1)%Z)) /\
  ((abs (b - a) <? tol) = true -> turn = Some (Return_ true c, (iters + 1)%Z)) /\
  ((abs (f c) <? tol) = false -> (abs (b - a) <? tol) = false ->
   (0 <? f a * f c) = true -> turn = next_turn (c, b)) /\
  ((abs (f c) <? tol) = false -> (abs (b - a) <? tol) = false ->
   (0 <? f a * f c) = false -> turn = next_turn (a, c)) /\
  ((f a =? 0) = false -> (f b =? 0) = false -> (0 <? f a * f b) = false ->
   (Z.of_nat k < 1000000)%Z ->
   goes_on_for (bisection_narrow f) (fun s => negb (bisection_stops f s))
     k (a, b) = true ->
   bisection_stops f bracket = true ->
   bisection f a b root
   = Some (mkResult true (midpoint bracket) (Z.of_nat k + 1))).
Proof.
  intros Hc c turn next_turn bracket. subst turn next_turn.
  split.
  { unfold bisection, bisection_fuel. intros -> -> ->. reflexivity. }
  one_turn Hc.
  assert (Hbody : bisection_body f (a, b) root =
                  if (abs (f c) <? tol) || (abs (b - a) <? tol)
                  then Return_ true c
                  else if 0 <? f a * f c then Next (c, b) root
                       else Next (a, c) root) by reflexivity.
  rewrite Hbody.
  split; [| split; [| split; [| split]]].
  - intros ->. reflexivity.
  - intros ->. rewrite orb_true_r. reflexivity.
  - intros -> -> ->. reflexivity.
  - intros -> -> ->. reflexivity.
  - intros Ha Hb Hab Hk G Hs.
    unfold bisection, bisection_fuel. rewrite Ha, Hb, Hab.
    apply (loop_then_false_run (bisection_body f) (bisection_narrow f)
             (fun s => negb (bisection_stops f s))
             (bisection_body_goes_on f) k enough_fuel 0 (a, b) root);
      [exact G | exact Hk | apply bisection_body_stops; exact Hs
      | apply enough_fuel_above; exact Hk].
Qed.

(** The cases of [bisection], each on an input that takes it:
    [x * x - 2] on [(0, 2)] passes the checks; [f(x) = x] on [(-1, 1)] has
    [f(c) = 0]; a bracket of width [2^-21] is below the tolerance;
    [x * x - 2] on [(0, 2)] has [f(0) * f(1) = 2], and on [(1, 2)] has
    [f(1) * f(1.5) = -0.25]; the call on [x * x - 2] over [(0, 2)] narrows
    21 times and returns the midpoint of the 22nd bracket. *)
Lemma bisection_iteration_witness :
  bisection sq2 0 2 7
  = loop_then_false (bisection_body sq2) enough_fuel 0 (0, 2) 7 /\
  for_loop (bisection_body (fun x => x)) 1 0 0 (-1, 1) 7
  = Some (Return_ true ((-1 + 1) / 2), 1%Z) /\
  for_loop (bisection_body (fun _ => 1)) 1 0 0 (1, 0x1.000008p+0) 7
  = Some (Return_ true ((1 + 0x1.000008p+0) / 2), 1%Z) /\
  for_loop (bisection_body sq2) 1 0 0 (0, 2) 7
  = for_loop (bisection_body sq2) 0 1 1 ((0 + 2) / 2, 2) 7 /\
  for_loop (bisection_body sq2) 1 1 1 (1, 2) 7
  = for_loop (bisection_body sq2) 0 2 2 (1, (1 + 2) / 2) 7 /\
  bisection sq2 0 2 7
  = Some (mkResult true (midpoint (after (bisection_narrow sq2) 21 (0, 2)))
            (Z.of_nat 21 + 1)).
Proof.
  split; [| split; [| split; [| split; [| split]]]].
  - exact (proj1 (bisection_iteration sq2 0 2 7 0 0 0 0 eq_refl)
             eq_refl eq_refl eq_refl).
  - exact (proj1 (proj2
             (bisection_iteration (fun x => x) (-1) 1 7 0 0 0 0 eq_refl))
             eq_refl).
  - exact (proj1 (proj2 (proj2
             (bisection_iteration (fun _ => 1) 1 0x1.000008p+0 7 0 0 0 0
                eq_refl)))
             eq_refl).
  - exact (proj1 (proj2 (proj2 (proj2
             (bisection_iteration sq2 0 2 7 0 0 0 0 eq_refl))))
             eq_refl eq_refl eq_refl).
  - exact (proj1 (proj2 (proj2 (proj2 (proj2
             (bisection_iteration sq2 1 2 7 0 1 1 0 eq_refl)))))
             eq_refl eq_refl eq_refl).
  - exact (proj2 (proj2 (proj2 (proj2 (proj2
             (bisection_iteration sq2 0 2 7 0 0 0 21 eq_refl)))))
             eq_refl eq_refl eq_refl eq_refl eq_refl eq_refl).
Defined.

(** C2.  The loop of [newton_raphson] starts at the guess [c].  An
    iteration at the iterate [xn], once past the derivative guard, takes
    [next_xn = xn - f(xn) / g(xn)].  It returns [false] at once, the cell
    untouched, when [next_xn < a] or [next_xn > b]; otherwise it returns
    [true] with [*root = next_xn] when [|next_xn - xn| < 1e-6]; otherwise the
    next iteration runs at [next_xn].  The value of [f] is read at [xn] only:
    a function that agrees with [f] at [xn] gives the same iteration, whatever
    its value at [next_xn] is.  The call returns what these iterations give:
    when the iterates [x_0 = c, x_1, ...] go on [k] times and [x_k] is past
    the guard, within the budget, [newton_raphson] returns [false] after
    [k + 1] iterations with the cell untouched if [x_{k+1}] is out of
    [[a, b]], and [true] with [*root = x_{k+1}] if it is within and
    [|x_{k+1} - x_k| < 1e-6]. *)
Theorem newton_raphson_iteration (f g : float -> float) (a b root : float)
  (fuel : nat) (count iters : Z) (xn : float) (c : float) (k : nat) :
  (count < max_count)%Z ->
  (abs (g xn) <? tol) = false ->
  let next_xn := xn - f xn / g xn in
  let outside := (next_xn <? a) || (b <? next_xn) in
  let turn :=
    for_loop (newton_raphson_body f g a b) (S fuel) count iters xn root in
  let x_k := after (newton_step f g) k c in
  (forall c : float,
     newton_raphson f g a b c root
     = loop_then_false (newton_raphson_body f g a b) enough_fuel 1 c root) /\
  (outside = true -> turn = Some (Return_ false root, (iters + 1)%Z)) /\
  (outside = false -> (abs (next_xn - xn) <? tol) = true ->
   turn = Some (Return_ true next_xn, (iters + 1)%Z)) /\
  (outside = false -> (abs (next_xn - xn) <? tol) = false ->
   turn = for_loop (newton_raphson_body f g a b) fuel (count + 1) (iters + 1)
            next_xn root) /\
  (forall f' : float -> float, f' xn = f xn ->
   newton_raphson_body f' g a b xn root = newton_raphson_body f g a b xn root) /\
  ((Z.of_nat k + 1 < 1000000)%Z ->
   goes_on_for (newton_step f g) (newton_goes_on f g a b) k c = true ->
   (abs (g x_k) <? tol) = false ->
   (within a b (newton_step f g x_k) = false ->
    newton_raphson f g a b c root
    = Some (mkResult false root (Z.of_nat k + 1))) /\
   (within a b (newton_step f g x_k) = true ->
    (abs (newton_step f g x_k - x_k) <? tol) = true ->
    newton_raphson f g a b c root
    = Some (mkResult true (newton_step f g x_k) (Z.of_nat k + 1)))).
Proof.
  intros Hc Hg next_xn outside turn x_k. subst turn.
  one_turn Hc.
  assert (Hbody : newton_raphson_body f g a b xn root =
                  if outside then Return_ false root
                  else if abs (next_xn - xn) <? tol then Return_ true next_xn
                       else Next next_xn root).
  { unfold newton_raphson_body, newton_raphson_body_with.
    rewrite Hg. reflexivity. }
  rewrite Hbody.
  split; [| split; [| split; [| split; [| split]]]].
  - reflexivity.
  - intros ->. reflexivity.
  - intros -> ->. reflexivity.
  - intros -> ->. reflexivity.
  - intros f' Hf'. rewrite <- Hbody.
    unfold newton_raphson_body, newton_raphson_body_with.
    rewrite Hf'. reflexivity.
  - intros Hk G Hgk.
    assert (Hrun : forall r x,
               newton_raphson_body f g a b x_k root = Return_ r x ->
               newton_raphson f g a b c root
               = Some (mkResult r x (Z.of_nat k + 1))).
    { intros r x B. unfold newton_raphson, newton_raphson_fuel.
      apply (loop_then_false_run (newton_raphson_body f g a b)
               (newton_step f g) (newton_goes_on f g a b)
               (newton_raphson_body_goes_on f g a b) k enough_fuel 1 c root);
        [exact G | unfold max_count; lia | exact B
        | apply enough_fuel_above; unfold max_count; lia]. }
    split.
    + intros W. apply Hrun. rewrite newton_raphson_body_view, Hgk, W.
      reflexivity.
    + intros W T. apply Hrun. rewrite newton_raphson_body_view, Hgk, W, T.
      reflexivity.
Qed.

(** The cases of an iteration of [newton_raphson]: from the guess [1] with
    [f(x) = x * x - 2] and [g(x) = 2 * x], the first step goes to [1.5], which
    is outside of [(0, 1.25)] and is inside of [(0, 2)] and far from [1]; with
    [f(x) = 500] and [g(x) = 1e9] the step is [5e-7], and the iteration
    succeeds at a point where [f] is [500]; the constant [-1] agrees with
    [x * x - 2] at [1].  The call with the bounds [(0, 1.25)] fails in its
    first iteration, and the call with the bounds [(0, 2)] goes on 4 times
    and returns the fifth step. *)
Lemma newton_raphson_iteration_witness :
  for_loop (newton_raphson_body sq2 (fun x => 2 * x) 0 1.25) 1 1 0 1 7
  = Some (Return_ false 7, 1%Z) /\
  for_loop (newton_raphson_body (fun _ => 500) (fun _ => 1e9) 0 2) 1 1 0 1 7
  = Some (Return_ true (1 - 500 / 1e9), 1%Z) /\
  for_loop (newton_raphson_body sq2 (fun x => 2 * x) 0 2) 1 1 0 1 7
  = for_loop (newton_raphson_body sq2 (fun x => 2 * x) 0 2) 0 2 1
      (1 - sq2 1 / (2 * 1)) 7 /\
  newton_raphson_body (fun _ => -1) (fun x => 2 * x) 0 1.25 1 7
  = newton_raphson_body sq2 (fun x => 2 * x) 0 1.25 1 7 /\
  newton_raphson sq2 (fun x => 2 * x) 0 1.25 1 7
  = Some (mkResult false 7 (Z.of_nat 0 + 1)) /\
  newton_raphson sq2 (fun x => 2 * x) 0 2 1 7
  = Some (mkResult true
            (newton_step sq2 (fun x => 2 * x)
               (after (newton_step sq2 (fun x => 2 * x)) 4 1))
            (Z.of_nat 4 + 1)).
Proof.
  split; [| split; [| split; [| split; [| split]]]].
  - exact (proj1 (proj2
             (newton_raphson_iteration sq2 (fun x => 2 * x) 0 1.25 7 0 1 0 1
                1 0 eq_refl eq_refl)) eq_refl).
  - exact (proj1 (proj2 (proj2
             (newton_raphson_iteration (fun _ => 500) (fun _ => 1e9) 0 2 7 0 1 0 1
                1 0 eq_refl eq_refl))) eq_refl eq_refl).
  - exact (proj1 (proj2 (proj2 (proj2
             (newton_raphson_iteration sq2 (fun x => 2 * x) 0 2 7 0 1 0 1
                1 0 eq_refl eq_refl)))) eq_refl eq_refl).
  - exact (proj1 (proj2 (proj2 (proj2 (proj2
             (newton_raphson_iteration sq2 (fun x => 2 * x) 0 1.25 7 0 1 0 1
                1 0 eq_refl eq_refl))))) (fun _ => -1) eq_refl).
  - exact (proj1 (proj2 (proj2 (proj2 (proj2 (proj2
             (newton_raphson_iteration sq2 (fun x => 2 * x) 0 1.25 7 0 1 0 1
                1 0 eq_refl eq_refl))))) eq_refl eq_refl eq_refl) eq_refl).
  - exact (proj2 (proj2 (proj2 (proj2 (proj2 (proj2
             (newton_raphson_iteration sq2 (fun x => 2 * x) 0 2 7 0 1 0 1
                1 4 eq_refl eq_refl))))) eq_refl eq_refl eq_refl)
             eq_refl eq_refl).
Defined.

(** C3.  An iteration of the loop of [secant] on the pair [(prev_x, x)],
    once past the guard on the denominator, takes
    [x_next = x - f(x) * (x - prev_x) / (f(x) - f(prev_x))].  It returns
    [false], the cell untouched, when [x_next < a] or [x_next > b], where [a]
    and [b] are the parameters of the call and not the pair of the iteration;
    otherwise it returns [true] with [*root = x_next] when
    [|x_next - x| < 1e-6]; otherwise the next iteration runs on
    [(x, x_next)] with the same [a] and [b].  The first pair is [(a, b)].
    The call returns what these iterations give: when the pairs from
    [(a, b)] go on [k] times and the next pair is past the guard, within the
    budget, [secant] returns [false] after [k + 1] iterations with the cell
    untouched if the step is out of [[a, b]], and [true] with [*root] the
    step if it is within and less than [1e-6] away from the current point. *)
Theorem secant_iteration (f : float -> float) (a b c root : float)
  (fuel : nat) (count iters : Z) (prev_x x : float) (k : nat) :
  (count < max_count)%Z ->
  (abs (f x - f prev_x) <? tol) = false ->
  let x_next := x - f x * (x - prev_x) / (f x - f prev_x) in
  let outside := (x_next <? a) || (b <? x_next) in
  let turn :=
    for_loop (secant_body f a b) (S fuel) count iters (prev_x, x) root in
  let pair_k := after (secant_advance f) k (a, b) in
  secant f a b c root
  = loop_then_false (secant_body f a b) enough_fuel 0 (a, b) root /\
  (outside = true -> turn = Some (Return_ false root, (iters + 1)%Z)) /\
  (outside = false -> (abs (x_next - x) <? tol) = true ->
   turn = Some (Return_ true x_next, (iters + 1)%Z)) /\
  (outside = false -> (abs (x_next - x) <? tol) = false ->
   turn = for_loop (secant_body f a b) fuel (count + 1) (iters + 1)
            (x, x_next) root) /\
  ((Z.of_nat k < 1000000)%Z ->
   goes_on_for (secant_advance f) (secant_goes_on f a b) k (a, b) = true ->
   (abs (f (snd pair_k) - f (fst pair_k)) <? tol) = false ->
   (within a b (secant_step f pair_k) = false ->
    secant f a b c root = Some (mkResult false root (Z.of_nat k + 1))) /\
   (within a b (secant_step f pair_k) = true ->
    (abs (secant_step f pair_k - snd pair_k) <? tol) = true ->
    secant f a b c root
    = Some (mkResult true (secant_step f pair_k) (Z.of_nat k + 1)))).
Proof.
  intros Hc Hg x_next outside turn pair_k. subst turn.
  one_turn Hc.
  assert (Hbody : secant_body f a b (prev_x, x) root =
                  if outside then Return_ false root
                  else if abs (x_next - x) <? tol then Return_ true x_next
                       else Next (x, x_next) root).
  { unfold secant_body, secant_body_with. rewrite Hg. reflexivity. }
  rewrite Hbody.
  split; [| split; [| split; [| split]]].
  - reflexivity.
  - intros ->. reflexivity.
  - intros -> ->. reflexivity.
  - intros -> ->. reflexivity.
  - intros Hk G Hgk.
    assert (Hrun : forall r y,
               secant_body f a b pair_k root = Return_ r y ->
               secant f a b c root = Some (mkResult r y (Z.of_nat k + 1))).
    { intros r y B. unfold secant, secant_fuel.
      apply (loop_then_false_run (secant_body f a b)
               (secant_advance f) (secant_goes_on f a b)
               (secant_body_goes_on f a b) k enough_fuel 0 (a, b) root);
        [exact G | unfold max_count; lia | exact B
        | apply enough_fuel_above; unfold max_count; lia]. }
    split.
    + intros W. apply Hrun. rewrite secant_body_view, Hgk, W. reflexivity.
    + intros W T. apply Hrun. rewrite secant_body_view, Hgk, W, T.
      reflexivity.
Qed.

(** The cases of an iteration of [secant] with [f(x) = x * x - 2]: from the
    pair [(1, 2)] the step goes to [4/3], inside of [(1, 2)] and far from
    [2]; from the pair [(2, 3)] within the bounds [(2.5, 3)] it goes to
    [1.6], below [2.5] although between no two of the iterates; from the pair
    [(1.4142135, 1.4142136)] it moves by less than the tolerance.  The call
    from [(2, 3)], whose first step [1.6] is below [2], fails in its first
    iteration, and the call from [(1, 2)] goes on 5 times and returns the
    sixth step. *)
Lemma secant_iteration_witness :
  for_loop (secant_body sq2 1 2) 1 0 0 (1, 2) 7
  = for_loop (secant_body sq2 1 2) 0 1 1
      (2, 2 - sq2 2 * (2 - 1) / (sq2 2 - sq2 1)) 7 /\
  for_loop (secant_body sq2 2.5 3) 1 0 0 (2, 3) 7
  = Some (Return_ false 7, 1%Z) /\
  for_loop (secant_body (fun x => 1000 * sq2 x) 1 2) 1 4 4
    (1.4142135, 1.4142136) 7
  = Some (Return_ true
            (1.4142136 - 1000 * sq2 1.4142136 * (1.4142136 - 1.4142135)
                         / (1000 * sq2 1.4142136 - 1000 * sq2 1.4142135)),
          5%Z) /\
  secant sq2 2 3 0 7 = Some (mkResult false 7 (Z.of_nat 0 + 1)) /\
  secant sq2 1 2 0 7
  = Some (mkResult true
            (secant_step sq2 (after (secant_advance sq2) 5 (1, 2)))
            (Z.of_nat 5 + 1)).
Proof.
  split; [| split; [| split; [| split]]].
  - exact (proj1 (proj2 (proj2 (proj2
             (secant_iteration sq2 1 2 0 7 0 0 0 1 2 0 eq_refl eq_refl))))
             eq_refl eq_refl).
  - exact (proj1 (proj2
             (secant_iteration sq2 2.5 3 0 7 0 0 0 2 3 0 eq_refl eq_refl))
             eq_refl).
  - exact (proj1 (proj2 (proj2
             (secant_iteration (fun x => 1000 * sq2 x) 1 2 0 7 0 4 4
                1.4142135 1.4142136 0 eq_refl eq_refl))) eq_refl eq_refl).
  - exact (proj1 (proj2 (proj2 (proj2 (proj2
             (secant_iteration sq2 2 3 0 7 0 0 0 2 3 0 eq_refl eq_refl))))
             eq_refl eq_refl eq_refl) eq_refl).
  - exact (proj2 (proj2 (proj2 (proj2 (proj2
             (secant_iteration sq2 1 2 0 7 0 0 0 1 2 5 eq_refl eq_refl))))
             eq_refl eq_refl eq_refl) eq_refl eq_refl).
Defined.

(** * Termination and the iteration budget *)

Lemma enough_fuel_covers (count : Z) :
  (0 <= count)%Z -> (max_count - count <= Z.of_nat enough_fuel)%Z.
Proof. unfold enough_fuel, max_count. lia. Qed.

(** Each solver made total: the fuel of [enough_fuel] is never used up, and
    any larger amount gives the same result. *)
Lemma loop_then_false_budget {St : Type} (body : St -> float -> flow St)
  (count : Z) (s : St) (root : float) :
  (0 <= count)%Z ->
  exists r,
    loop_then_false body enough_fuel count s root = Some r /\
    (0 <= iterations r <= Z.max 0 (max_count - count))%Z /\
    forall k, loop_then_false body (enough_fuel + k) count s root = Some r.
Proof.
  intros H0.
  destruct (loop_then_false_total body enough_fuel count s root
              (enough_fuel_covers count H0)) as (r & E & B).
  exists r. split; [exact E|]. split; [exact B|].
  intros k. apply (loop_then_false_more_fuel body enough_fuel); [exact E | lia].
Qed.

(** C4.  Each of the four solvers returns on every input: the result is
    there with the fuel of one unit per value of [count], any larger amount
    gives the same result, and the loop body has then run at most 1,000,000
    times.  On the constant function [f(x) = 1], [bisection] and
    [regula_falsi] return [false] before the loop and [secant] in its first
    iteration. *)
Theorem solvers_terminate (f g : float -> float) (a b c root : float) :
  (exists r, bisection f a b root = Some r /\
             (0 <= iterations r <= 1000000)%Z /\
             forall k, bisection_fuel (enough_fuel + k) f a b root = Some r) /\
  (exists r, regula_falsi f a b root = Some r /\
             (0 <= iterations r <= 1000000)%Z /\
             forall k, regula_falsi_fuel (enough_fuel + k) f a b root = Some r) /\
  (exists r, newton_raphson f g a b c root = Some r /\
             (0 <= iterations r <= 1000000)%Z /\
             forall k, newton_raphson_fuel (enough_fuel + k) f g a b c root
                       = Some r) /\
  (exists r, secant f a b c root = Some r /\
             (0 <= iterations r <= 1000000)%Z /\
             forall k, secant_fuel (enough_fuel + k) f a b c root = Some r) /\
  bisection (fun _ => 1) a b root = Some (mkResult false root 0) /\
  regula_falsi (fun _ => 1) a b root = Some (mkResult false root 0) /\
  secant (fun _ => 1) a b c root = Some (mkResult false root 1).
Proof.
  assert (Hearly : forall r0 : result,
             iterations r0 = 0%Z ->
             exists r, Some r0 = Some r /\
                       (0 <= iterations r <= 1000000)%Z /\
                       (nat -> Some r0 = Some r)).
  { intros r0 Hi. exists r0. rewrite Hi. repeat split; auto; lia. }
  assert (Hloop : forall (St : Type) (body : St -> float -> flow St)
                    (count : Z) (s : St),
             (0 <= count)%Z ->
             exists r, loop_then_false body enough_fuel count s root = Some r /\
                       (0 <= iterations r <= 1000000)%Z /\
                       forall k, loop_then_false body (enough_fuel + k) count s root
                                 = Some r).
  { intros St body count s H0.
    destruct (loop_then_false_budget body count s root H0) as (r & E & B & K).
    exists r. unfold max_count in B. repeat split; auto; lia. }
  split; [| split; [| split; [| split; [| split; [| split]]]]].
  - unfold bisection, bisection_fuel.
    destruct (f a =? 0); [apply (Hearly (mkResult true a 0)); reflexivity|].
    destruct (f b =? 0); [apply (Hearly (mkResult true b 0)); reflexivity|].
    destruct (0 <? f a * f b);
      [apply (Hearly (mkResult false root 0)); reflexivity|].
    apply Hloop. lia.
  - unfold regula_falsi, regula_falsi_fuel.
    destruct (0 <=? f a * f b);
      [apply (Hearly (mkResult false root 0)); reflexivity|].
    apply Hloop. lia.
  - unfold newton_raphson, newton_raphson_fuel. apply Hloop. lia.
  - unfold secant, secant_fuel. apply Hloop. lia.
  - reflexivity.
  - reflexivity.
  - apply (loop_then_false_more_fuel _ 1); [reflexivity|].
    unfold enough_fuel, max_count. lia.
Qed.

(** The loop of [newton_raphson] starts at [count = 1]: its body runs at most
    999,999 times. *)
Lemma newton_raphson_budget (f g : float -> float) (a b c root : float) :
  exists r, newton_raphson f g a b c root = Some r /\
            (0 <= iterations r <= 999999)%Z.
Proof.
  destruct (loop_then_false_budget (newton_raphson_body f g a b) 1 c root)
    as (r & E & B & _); [lia|].
  exists r. split; [exact E|]. unfold max_count in B. lia.
Qed.

(** * The output cell *)

Lemma bisection_body_frame (f : float -> float) :
  writes_on_success_only (bisection_body f).
Proof.
  intros [a b] root. unfold bisection_body.
  destruct (_ || _); [exact I|].
  destruct (0 <? _); reflexivity.
Qed.

Lemma regula_falsi_body_frame (f : float -> float) :
  writes_on_success_only (regula_falsi_body f).
Proof.
  intros [a b] root. unfold regula_falsi_body.
  destruct (_ || _); [exact I|].
  destruct (0 <? _); reflexivity.
Qed.

Lemma newton_raphson_body_frame (fdiv : float -> float -> float)
  (f g : float -> float) (a b : float) :
  writes_on_success_only (newton_raphson_body_with fdiv f g a b).
Proof.
  intros xn root. unfold newton_raphson_body_with.
  destruct (abs (g xn) <? tol); [reflexivity|].
  destruct (_ || _); [reflexivity|].
  destruct (abs _ <? tol); [exact I | reflexivity].
Qed.

Lemma secant_body_frame (fdiv : float -> float -> float)
  (f : float -> float) (a b : float) :
  writes_on_success_only (secant_body_with fdiv f a b).
Proof.
  intros [prev_xn xn] root. unfold secant_body_with.
  destruct (abs (f xn - f prev_xn) <? tol); [reflexivity|].
  destruct (_ || _); [reflexivity|].
  destruct (abs _ <? tol); [exact I | reflexivity].
Qed.

(** C5.  Whenever one of the four solvers returns [false], the cell [*root]
    holds after the call what it held before: for a bracket that is refused,
    a guard that fires, an iterate that leaves the bounds and a budget that
    is used up alike. *)
Theorem failure_leaves_root_untouched (f g : float -> float)
  (a b c root : float) (r : result) :
  ret r = false ->
  (bisection f a b root = Some r -> root_after r = root) /\
  (regula_falsi f a b root = Some r -> root_after r = root) /\
  (newton_raphson f g a b c root = Some r -> root_after r = root) /\
  (secant f a b c root = Some r -> root_after r = root).
Proof.
  intros Hr. split; [| split; [| split]].
  - unfold bisection, bisection_fuel.
    destruct (f a =? 0);
      [intros E; injection E as <-; discriminate|].
    destruct (f b =? 0);
      [intros E; injection E as <-; discriminate|].
    destruct (0 <? f a * f b);
      [intros E; injection E as <-; reflexivity|].
    intros E.
    exact (loop_then_false_frame _ (bisection_body_frame f) _ _ _ _ _ E Hr).
  - unfold regula_falsi, regula_falsi_fuel.
    destruct (0 <=? f a * f b);
      [intros E; injection E as <-; reflexivity|].
    intros E.
    exact (loop_then_false_frame _ (regula_falsi_body_frame f) _ _ _ _ _ E Hr).
  - unfold newton_raphson, newton_raphson_fuel. intros E.
    exact (loop_then_false_frame _ (newton_raphson_body_frame _ f g a b)
             _ _ _ _ _ E Hr).
  - unfold secant, secant_fuel. intros E.
    exact (loop_then_false_frame _ (secant_body_frame _ f a b) _ _ _ _ _ E Hr).
Qed.

(** Failing runs of the four solvers on a cell that holds [7]: the budget
    used up in [bisection], a bracket without a change of sign in
    [regula_falsi], an iterate out of the bounds in [newton_raphson] and a
    flat secant in [secant]. *)
Lemma failure_leaves_root_untouched_witness :
  (bisection (step_at 10000000000000002) 1e16 10000000000000002 7
   = Some (mkResult false 7 1000000) /\
   root_after (mkResult false 7 1000000) = 7) /\
  (regula_falsi sq2 2 3 7 = Some (mkResult false 7 0) /\
   root_after (mkResult false 7 0) = 7) /\
  (newton_raphson sq2 (fun x => 2 * x) 0 1.25 1 7 = Some (mkResult false 7 1) /\
   root_after (mkResult false 7 1) = 7) /\
  (secant (fun _ => 1) 1 2 0 7 = Some (mkResult false 7 1) /\
   root_after (mkResult false 7 1) = 7).
Proof.
  assert (E1 : bisection (step_at 10000000000000002) 1e16 10000000000000002 7
               = Some (mkResult false 7 1000000))
    by (vm_compute; reflexivity).
  assert (E2 : regula_falsi sq2 2 3 7 = Some (mkResult false 7 0))
    by (vm_compute; reflexivity).
  assert (E3 : newton_raphson sq2 (fun x => 2 * x) 0 1.25 1 7
               = Some (mkResult false 7 1))
    by (vm_compute; reflexivity).
  assert (E4 : secant (fun _ => 1) 1 2 0 7 = Some (mkResult false 7 1))
    by (vm_compute; reflexivity).
  split; [| split; [| split]]; (split; [assumption|]).
  - exact (proj1 (failure_leaves_root_untouched
                    (step_at 10000000000000002) (fun x => x)
                    1e16 10000000000000002 0 7 (mkResult false 7 1000000)
                    eq_refl) E1).
  - exact (proj1 (proj2 (failure_leaves_root_untouched
                    sq2 (fun x => x) 2 3 0 7 (mkResult false 7 0)
                    eq_refl)) E2).
  - exact (proj1 (proj2 (proj2 (failure_leaves_root_untouched
                    sq2 (fun x => 2 * x) 0 1.25 1 7 (mkResult false 7 1)
                    eq_refl))) E3).
  - exact (proj2 (proj2 (proj2 (failure_leaves_root_untouched
                    (fun _ => 1) (fun x => x) 1 2 0 7 (mkResult false 7 1)
                    eq_refl))) E4).
Defined.

(** * The checks made before and inside the loops *)

Lemma bisection_zero_at_a (f : float -> float) (a b root : float) :
  (f a =? 0) = true -> bisection f a b root = Some (mkResult true a 0).
Proof. unfold bisection, bisection_fuel. intros ->. reflexivity. Qed.

Lemma bisection_zero_at_b (f : float -> float) (a b root : float) :
  (f a =? 0) = false -> (f b =? 0) = true ->
  bisection f a b root = Some (mkResult true b 0).
Proof. unfold bisection, bisection_fuel. intros -> ->. reflexivity. Qed.

(** C7.  [bisection] compares [f(a)] and then [f(b)] with zero, by the
    equality of doubles and not within a tolerance, before the sign check and
    the loop.  When [f(a) == 0] it returns [true] with [*root = a] and no
    iteration made; when [f(a)] is not zero and [f(b) == 0] it returns [true]
    with [*root = b] and no iteration made.  On [f(x) = x] over [(0, 2)] it
    returns [true] with [*root = 0].  When neither value is zero, however
    small, the call goes on to the sign check and the loop. *)
Theorem bisection_zero_endpoint (f : float -> float) (a b root : float) :
  ((f a =? 0) = true -> bisection f a b root = Some (mkResult true a 0)) /\
  ((f a =? 0) = false -> (f b =? 0) = true ->
   bisection f a b root = Some (mkResult true b 0)) /\
  bisection (fun x => x) 0 2 root = Some (mkResult true 0 0) /\
  ((f a =? 0) = false -> (f b =? 0) = false ->
   bisection f a b root =
   if 0 <? f a * f b then Some (mkResult false root 0)
   else loop_then_false (bisection_body f) enough_fuel 0 (a, b) root).
Proof.
  split; [| split; [| split]].
  - apply bisection_zero_at_a.
  - apply bisection_zero_at_b.
  - reflexivity.
  - unfold bisection, bisection_fuel. intros -> ->. reflexivity.
Qed.

(** [f(x) = x] over [(0, 2)] has its zero at [a], and [f(x) = x - 2] at [b];
    [f(x) = x + 1e-9] over [(0, -1)] is [1e-9] at [a], below the tolerance
    and not zero, and the call enters the loop. *)
Lemma bisection_zero_endpoint_witness :
  bisection (fun x => x) 0 2 7 = Some (mkResult true 0 0) /\
  bisection (fun x => x - 2) 0 2 7 = Some (mkResult true 2 0) /\
  bisection (fun x => x + 1e-9) 0 (-1) 7
  = loop_then_false (bisection_body (fun x => x + 1e-9)) enough_fuel 0
      (0, -1) 7.
Proof.
  split; [| split].
  - exact (proj1 (bisection_zero_endpoint (fun x => x) 0 2 7) eq_refl).
  - exact (proj1 (proj2 (bisection_zero_endpoint (fun x => x - 2) 0 2 7))
             eq_refl eq_refl).
  - exact (proj2 (proj2 (proj2
             (bisection_zero_endpoint (fun x => x + 1e-9) 0 (-1) 7)))
             eq_refl eq_refl).
Defined.

(** That run of the loop ends after 20 iterations. *)
Example bisection_small_endpoint_value :
  bisection (fun x => x + 1e-9) 0 (-1) 7
  = Some (mkResult true (-0x1p-20) 20).
Proof. vm_compute. reflexivity. Qed.



(** C10.  [secant] gives the same result for any two values of its third
    scalar parameter: both calls return, with the same boolean, the same
    content of the cell and the same number of iterations, and they do so
    with any amount of fuel. *)
Theorem secant_ignores_c (f : float -> float) (a b c1 c2 root : float) :
  (exists r, secant f a b c1 root = Some r /\ secant f a b c2 root = Some r) /\
  (forall fuel, secant_fuel fuel f a b c1 root = secant_fuel fuel f a b c2 root).
Proof.
  split.
  - destruct (loop_then_false_budget (secant_body f a b) 0 (a, b) root)
      as (r & E & _); [lia|].
    exists r. unfold secant, secant_fuel. split; exact E.
  - intros fuel. unfold secant_fuel. reflexivity.
Qed.

(** * The bracket of the two bracketing methods *)

(** On [overflowing] over [(0, 2)] the value at [a] is zero and the product
    [f(a) * f(b)] is [0 * infinity], which is NaN and not [>= 0]:
    [regula_falsi] enters its loop, takes [c = 0 - 0 / infinity = 0] and
    returns [true] with [*root = a]. *)
Lemma regula_falsi_zero_endpoint_accepted :
  (overflowing 0 =? 0) = true /\
  (0 <=? overflowing 0 * overflowing 2) = false /\
  regula_falsi overflowing 0 2 7 = Some (mkResult true 0 1).
Proof. vm_compute. repeat split. Qed.

(** C6, amended.  [regula_falsi] returns [false], the cell untouched and no
    iteration made, whenever [f(a) * f(b) >= 0].  It has no case for an
    endpoint where [f] is zero: when [f(a) == 0] or [f(b) == 0] and the value
    at the other endpoint is finite, the product is a zero and the call
    fails, where [bisection] returns that endpoint. *)
Theorem regula_falsi_precondition (f : float -> float) (a b root : float) :
  ((0 <=? f a * f b) = true ->
   regula_falsi f a b root = Some (mkResult false root 0)) /\
  ((f a =? 0) = true -> is_finite (f b) = true ->
   regula_falsi f a b root = Some (mkResult false root 0) /\
   bisection f a b root = Some (mkResult true a 0)) /\
  ((f b =? 0) = true -> is_finite (f a) = true ->
   regula_falsi f a b root = Some (mkResult false root 0) /\
   bisection f a b root = Some (mkResult true (if f a =? 0 then a else b) 0)).
Proof.
  assert (Hpre : (0 <=? f a * f b) = true ->
                 regula_falsi f a b root = Some (mkResult false root 0)).
  { unfold regula_falsi, regula_falsi_fuel. intros ->. reflexivity. }
  split; [exact Hpre | split].
  - intros Ha Hb. split.
    + apply Hpre. apply (zero_mul_finite _ _ Ha Hb).
    + apply bisection_zero_at_a. exact Ha.
  - intros Hb Ha. split.
    + apply Hpre. apply (zero_mul_finite _ _ Hb Ha).
    + destruct (f a =? 0) eqn:Ea.
      * apply bisection_zero_at_a. exact Ea.
      * apply bisection_zero_at_b; assumption.
Qed.

(** [f(x) = x] over [(0, 2)] and over [(-2, 0)], and [x * x - 2] over
    [(2, 3)], where both values are positive. *)
Lemma regula_falsi_precondition_witness :
  regula_falsi sq2 2 3 7 = Some (mkResult false 7 0) /\
  (regula_falsi (fun x => x) 0 2 7 = Some (mkResult false 7 0) /\
   bisection (fun x => x) 0 2 7 = Some (mkResult true 0 0)) /\
  (regula_falsi (fun x => x) (-2) 0 7 = Some (mkResult false 7 0) /\
   bisection (fun x => x) (-2) 0 7 = Some (mkResult true 0 0)).
Proof.
  split; [| split].
  - exact (proj1 (regula_falsi_precondition sq2 2 3 7) eq_refl).
  - exact (proj1 (proj2 (regula_falsi_precondition (fun x => x) 0 2 7))
             eq_refl eq_refl).
  - exact (proj2 (proj2 (regula_falsi_precondition (fun x => x) (-2) 0 7))
             eq_refl eq_refl).
Defined.

(** The narrowing step shared by the two bodies (lines 26-31 and 57-62). *)
Lemma narrowing_keeps_product_not_positive (f : float -> float) (a b c : float) :
  (f a * f b <? 0) = true ->
  let '(a', b') := if 0 <? f a * f c then (c, b) else (a, c) in
  (0 <? f a' * f b') = false.
Proof.
  intros Hab. destruct (0 <? f a * f c) eqn:Hac; [| exact Hac].
  destruct (0 <? f c * f b) eqn:Hcb; [| reflexivity].
  apply mul_neg_signs in Hab. apply mul_pos_signs in Hac.
  apply mul_pos_signs in Hcb.
  pose proof (neg_pos_excl (f a)) as Xa.
  pose proof (neg_pos_excl (f b)) as Xb.
  pose proof (neg_pos_excl (f c)) as Xc.
  destruct (f a <? 0), (0 <? f a), (f b <? 0), (0 <? f b),
    (f c <? 0), (0 <? f c); simpl in *; congruence.
Qed.

(** The product [f(a) * f(b) < 0] is not kept by the narrowing step.  On
    [gap_around_1] over [(0, 2)] the values are [-0.866] and [0.866]; both
    methods take [c = 1], where the value is NaN, and go on with [(0, 1)],
    where the product is NaN.  On [tiny_step] over [(0, 2)] the product is [-1e-312];
    [bisection] goes on with [(1, 2)], where the values [1e-3] and [-1e-322]
    have a product that rounds to [-0]. *)
Lemma sign_test_lost_after_narrowing :
  ((gap_around_1 0 * gap_around_1 2 <? 0) = true /\
   bisection_body gap_around_1 (0, 2) 7 = Next (0, 1) 7 /\
   regula_falsi_body gap_around_1 (0, 2) 7 = Next (0, 1) 7 /\
   (gap_around_1 0 * gap_around_1 1 <? 0) = false) /\
  ((tiny_step 0 * tiny_step 2 <? 0) = true /\
   bisection_body tiny_step (0, 2) 7 = Next (1, 2) 7 /\
   (tiny_step 1 * tiny_step 2 <? 0) = false).
Proof. vm_compute. repeat split. Qed.

(** C9, amended.  In [bisection] and in [regula_falsi], when
    [f(a) * f(b) < 0] holds at the start of an iteration that does not
    return, the product for the bracket of the next iteration is never
    [> 0]; it is [< 0] whenever it is a number other than zero, that is
    unless [f(c)] is NaN or the product of the two values underflows to
    zero, and the values at the two endpoints are then one [< 0] and the
    other [> 0]. *)
Theorem sign_change_kept (f : float -> float) (a b root a' b' root' : float) :
  (f a * f b <? 0) = true ->
  bisection_body f (a, b) root = Next (a', b') root' \/
  regula_falsi_body f (a, b) root = Next (a', b') root' ->
  (0 <? f a' * f b') = false /\
  (nonzero_number (f a' * f b') = true ->
   (f a' * f b' <? 0) = true /\
   ((f a' <? 0) && (0 <? f b')) || ((0 <? f a') && (f b' <? 0)) = true).
Proof.
  intros Hab Hstep.
  assert (Hnp : (0 <? f a' * f b') = false).
  { destruct Hstep as [Hstep | Hstep].
    - unfold bisection_body in Hstep.
      pose proof (narrowing_keeps_product_not_positive f a b ((a + b) / 2) Hab)
        as N.
      destruct (_ || _); [discriminate|].
      destruct (0 <? f a * f ((a + b) / 2));
        injection Hstep as <- <- _; exact N.
    - unfold regula_falsi_body in Hstep.
      pose proof (narrowing_keeps_product_not_positive f a b
                    (a - f a * (b - a) / (f b - f a)) Hab) as N.
      destruct (_ || _); [discriminate|].
      destruct (0 <? f a * f (a - f a * (b - a) / (f b - f a)));
        injection Hstep as <- <- _; exact N. }
  split; [exact Hnp|].
  unfold nonzero_number. rewrite Hnp, orb_false_r. intros Hneg.
  split; [exact Hneg | apply mul_neg_signs; exact Hneg].
Qed.

(** [x * x - 2] over [(0, 2)]: [bisection] goes on with [(1, 2)] and
    [regula_falsi] as well, the values there being [-1] and [2]. *)
Lemma sign_change_kept_witness :
  (sq2 1 * sq2 2 <? 0) = true /\
  ((sq2 1 <? 0) && (0 <? sq2 2)) || ((0 <? sq2 1) && (sq2 2 <? 0)) = true.
Proof.
  assert (Hbis : bisection_body sq2 (0, 2) 7 = Next (1, 2) 7) by reflexivity.
  assert (Hrf : regula_falsi_body sq2 (0, 2) 7 = Next (1, 2) 7) by reflexivity.
  split.
  - exact (proj1 (proj2 (sign_change_kept sq2 0 2 7 1 2 7 eq_refl
                           (or_introl Hbis)) eq_refl)).
  - exact (proj2 (proj2 (sign_change_kept sq2 0 2 7 1 2 7 eq_refl
                           (or_intror Hrf)) eq_refl)).
Defined.


(** * Runs on the functions of section 8 of the specification *)

(** [bisection] on [f(x) = x] over [(-1, 1)] finds [0] at the first
    midpoint, and on [x * x - 2] over [(0, 2)] it stops after 22 iterations
    within [1e-6] of the square root of two. *)
Example bisection_runs :
  bisection (fun x => x) (-1) 1 7 = Some (mkResult true 0 1) /\
  bisection sq2 0 2 7 = Some (mkResult true 1.4142136573791504 22) /\
  (abs (1.4142136573791504 - sqrt 2) <? tol) = true.
Proof. vm_compute. repeat split. Qed.

(** [regula_falsi] on [f(x) = x] over [(-1, 1)] and on [x * x - 2] over
    [(0, 2)]. *)
Example regula_falsi_runs :
  regula_falsi (fun x => x) (-1) 1 7 = Some (mkResult true 0 1) /\
  regula_falsi sq2 0 2 7 = Some (mkResult true 1.4142134998513232 10).
Proof. vm_compute. repeat split. Qed.

(** [newton_raphson] on [x * x - 2] with the derivative [2 * x], the bounds
    [(0, 2)] and the guess [1]; with a derivative that is zero it fails. *)
Example newton_raphson_runs :
  newton_raphson sq2 (fun x => 2 * x) 0 2 1 7
  = Some (mkResult true 1.4142135623730951 5) /\
  newton_raphson sq2 (fun _ => 0) 0 2 1 7 = Some (mkResult false 7 1).
Proof. vm_compute. repeat split. Qed.

(** [secant] on [x * x - 2] from [(1, 2)]: the root lies in [(1, 2)]. *)
Example secant_runs :
  secant sq2 1 2 0 7 = Some (mkResult true 1.4142135623730954 6) /\
  (1 <=? 1.4142135623730954) && (1.4142135623730954 <=? 2) = true.
Proof. vm_compute. repeat split. Qed.

(** * The order of doubles *)

Section FloatOrder.

Lemma lex3_spec (k1 k2 : Z * Z * Z) :
  match lex3 k1 k2 with
  | Lt => key_lt k1 k2
  | Eq => k1 = k2
  | Gt => key_lt k2 k1
  end.
Proof.
  destruct k1 as [[c1 e1] m1], k2 as [[c2 e2] m2]. unfold lex3, key_lt.
  destruct (Z.compare_spec c1 c2); [| lia | lia].
  destruct (Z.compare_spec e1 e2); [| lia | lia].
  destruct (Z.compare_spec m1 m2); [subst; reflexivity | lia | lia].
Qed.

Lemma key_lt_irrefl (k : Z * Z * Z) : ~ key_lt k k.
Proof. destruct k as [[c e] m]. unfold key_lt. lia. Qed.

Lemma key_lt_trans (k1 k2 k3 : Z * Z * Z) :
  key_lt k1 k2 -> key_lt k2 k3 -> key_lt k1 k3.
Proof.
  destruct k1 as [[c1 e1] m1], k2 as [[c2 e2] m2], k3 as [[c3 e3] m3].
  unfold key_lt. lia.
Qed.

Lemma key_lt_total (k1 k2 : Z * Z * Z) :
  key_lt k1 k2 \/ k1 = k2 \/ key_lt k2 k1.
Proof.
  pose proof (lex3_spec k1 k2) as H. destruct (lex3 k1 k2); auto.
Qed.

(** [SFcompare] is the lexicographic comparison of the keys. *)
Lemma SFcompare_key (x y : spec_float) :
  SFcompare x y =
  match SFkey x, SFkey y with
  | Some k1, Some k2 => Some (lex3 k1 k2)
  | _, _ => None
  end.
Proof.
  destruct x as [sx | sx | | sx mx ex], y as [sy | sy | | sy my ey];
    try destruct sx; try destruct sy; try reflexivity.
  cbn [SFcompare SFkey lex3]. rewrite Z.compare_opp, (Z.compare_antisym ex ey).
  cbn [Z.compare]. destruct (ex ?= ey)%Z; reflexivity.
Qed.

Lemma is_nan_key (x : float) :
  is_nan x = false <-> exists k, SFkey (Prim2SF x) = Some k.
Proof.
  unfold is_nan. rewrite eqb_spec. unfold SFeqb. rewrite SFcompare_key.
  destruct (SFkey (Prim2SF x)) as [k |].
  - pose proof (lex3_spec k k) as H. pose proof (key_lt_irrefl k) as I.
    destruct (lex3 k k); try contradiction. split; [eauto | reflexivity].
  - split; [discriminate | intros [k Hk]; discriminate].
Qed.

Lemma ltb_true_key (x y : float) :
  (x <? y) = true ->
  exists k1 k2, SFkey (Prim2SF x) = Some k1 /\ SFkey (Prim2SF y) = Some k2 /\
                key_lt k1 k2.
Proof.
  rewrite ltb_spec. unfold SFltb. rewrite SFcompare_key.
  destruct (SFkey (Prim2SF x)) as [k1 |]; [| discriminate].
  destruct (SFkey (Prim2SF y)) as [k2 |]; [| discriminate].
  pose proof (lex3_spec k1 k2) as H.
  destruct (lex3 k1 k2); try discriminate. eauto.
Qed.

Lemma ltb_false_key (x y : float) (k1 k2 : Z * Z * Z) :
  SFkey (Prim2SF x) = Some k1 -> SFkey (Prim2SF y) = Some k2 ->
  (x <? y) = false -> k1 = k2 \/ key_lt k2 k1.
Proof.
  rewrite ltb_spec. unfold SFltb. rewrite SFcompare_key. intros -> ->.
  pose proof (lex3_spec k1 k2) as H.
  destruct (lex3 k1 k2); try discriminate; auto.
Qed.

Lemma leb_of_key (x y : float) (k1 k2 : Z * Z * Z) :
  SFkey (Prim2SF x) = Some k1 -> SFkey (Prim2SF y) = Some k2 ->
  k1 = k2 \/ key_lt k1 k2 -> (x <=? y) = true.
Proof.
  rewrite leb_spec. unfold SFleb. rewrite SFcompare_key. intros -> -> H.
  pose proof (lex3_spec k1 k2) as L.
  destruct (lex3 k1 k2); try reflexivity.
  destruct H as [-> | H]; [exact (False_ind _ (key_lt_irrefl _ L))|].
  exact (False_ind _ (key_lt_irrefl _ (key_lt_trans _ _ _ H L))).
Qed.

(** Between numbers, [x < y] false is [y <= x]. *)
Lemma ltb_false_leb (x y : float) :
  is_nan x = false -> is_nan y = false -> (x <? y) = false -> (y <=? x) = true.
Proof.
  intros Hx Hy H. apply is_nan_key in Hx, Hy.
  destruct Hx as [k1 K1], Hy as [k2 K2].
  apply (leb_of_key y x k2 k1 K2 K1).
  destruct (ltb_false_key x y k1 k2 K1 K2 H); auto.
Qed.

(** A number [x] with neither [x < a] nor [b < x] leaves no room for
    [b < a]. *)
Lemma within_not_reversed (a b x : float) :
  is_nan x = false -> (x <? a) = false -> (b <? x) = false -> (b <? a) = false.
Proof.
  intros Hx Hxa Hbx. destruct (b <? a) eqn:Hba; [| reflexivity].
  apply is_nan_key in Hx. destruct Hx as [kx Kx].
  apply ltb_true_key in Hba. destruct Hba as (kb & ka & Kb & Ka & Hlt).
  pose proof (ltb_false_key x a kx ka Kx Ka Hxa) as H1.
  pose proof (ltb_false_key b x kb kx Kb Kx Hbx) as H2.
  exfalso. destruct H1 as [-> | H1], H2 as [-> | H2].
  - exact (key_lt_irrefl _ Hlt).
  - exact (key_lt_irrefl _ (key_lt_trans _ _ _ Hlt H2)).
  - exact (key_lt_irrefl _ (key_lt_trans _ _ _ Hlt H1)).
  - exact (key_lt_irrefl _ (key_lt_trans _ _ _ (key_lt_trans _ _ _ Hlt H1) H2)).
Qed.

(** A difference within a bound: both operands are numbers. *)
Lemma abs_sub_ltb_numbers (x y t : float) :
  (abs (x - y) <? t) = true -> is_nan x = false /\ is_nan y = false.
Proof.
  rewrite ltb_spec, abs_spec, sub_spec. intros H.
  split; apply is_nan_key.
  - destruct (Prim2SF x) as [s | s | | s m e]; try destruct s;
      try (eexists; reflexivity). discriminate.
  - destruct (Prim2SF y) as [s | s | | s m e]; try destruct s;
      try (eexists; reflexivity).
    destruct (Prim2SF x) as [s | s | | s m e]; discriminate.
Qed.

End FloatOrder.

(** * How a loop is left *)

Section ForLoopOutcome.
Context {St : Type}.
Variable body : St -> float -> flow St.
Variable Inv : St -> Prop.
Hypothesis Inv_step :
  forall (s : St) (root : float) (s' : St) (root' : float),
    Inv s -> body s root = Next s' root' -> Inv s'.

(** A loop that is left by a [return] was left by the body run on loop
    variables that the invariant holds of, within the remaining budget; a
    loop that is left by its condition used the whole remaining budget. *)
Lemma for_loop_outcome (fuel : nat) :
  forall (count iters : Z) (s : St) (root : float) (fl : flow St) (n : Z),
    Inv s ->
    for_loop body fuel count iters s root = Some (fl, n) ->
    match fl with
    | Return_ r root' =>
        exists s_last root_last,
          Inv s_last /\ body s_last root_last = Return_ r root' /\
          (iters + 1 <= n <= iters + (max_count - count))%Z
    | Next s' _ => Inv s' /\ n = (iters + Z.max 0 (max_count - count))%Z
    end.
Proof.
  induction fuel as [| fuel IH]; intros count iters s root fl n HI E.
  - simpl in E. destruct (count <? max_count)%Z eqn:C; [discriminate|].
    apply Z.ltb_ge in C. injection E as <- <-. split; [exact HI | lia].
  - destruct (Z.lt_ge_cases count max_count) as [Hlt | Hge].
    + rewrite for_loop_turn in E by exact Hlt.
      destruct (body s root) as [r root' | s' root'] eqn:B.
      * injection E as <- <-. exists s, root. split; [exact HI|].
        split; [exact B | lia].
      * specialize (IH _ _ _ _ _ _ (Inv_step _ _ _ _ HI B) E).
        destruct fl as [r root'' | s'' root''].
        -- destruct IH as (sl & rl & HIl & Bl & Hn).
           exists sl, rl. split; [exact HIl|]. split; [exact Bl | lia].
        -- destruct IH as [HI' ->]. split; [exact HI' | lia].
    + rewrite for_loop_exit in E by exact Hge.
      injection E as <- <-. split; [exact HI | lia].
Qed.

End ForLoopOutcome.

(** The same for a loop followed by [return false]. *)
Lemma loop_then_false_outcome {St : Type} (body : St -> float -> flow St)
  (Inv : St -> Prop)
  (Inv_step : forall s root s' root',
      Inv s -> body s root = Next s' root' -> Inv s')
  (fuel : nat) (count : Z) (s : St) (root : float) (r : result) :
  Inv s ->
  loop_then_false body fuel count s root = Some r ->
  (exists s_last root_last,
      Inv s_last /\
      body s_last root_last = Return_ (ret r) (root_after r) /\
      (1 <= iterations r <= max_count - count)%Z) \/
  (ret r = false /\ iterations r = Z.max 0 (max_count - count)).
Proof.
  unfold loop_then_false. intros HI E.
  destruct (for_loop body fuel count 0 s root) as [[fl n] |] eqn:L;
    [| discriminate].
  apply (for_loop_outcome body Inv Inv_step) in L; [| exact HI].
  destruct fl as [b root' | s' root']; injection E as <-; cbn [ret root_after iterations].
  - left. destruct L as (sl & rl & HIl & Bl & Hn).
    exists sl, rl. split; [exact HIl|]. split; [exact Bl | lia].
  - right. destruct L as [_ ->]. split; [reflexivity | lia].
Qed.

(** * What a success of a bracketing method says of the root *)

Lemma bisection_body_return (f : float -> float) (s : float * float)
  (root : float) (r : bool) (x : float) :
  bisection_body f s root = Return_ r x ->
  r = true /\ x = (fst s + snd s) / 2 /\
  (abs (f x) <? tol) || (abs (snd s - fst s) <? tol) = true.
Proof.
  destruct s as [a b]. unfold bisection_body. cbn [fst snd].
  destruct (_ || _) eqn:T.
  - intros E. injection E as <- <-. auto.
  - destruct (0 <? _); discriminate.
Qed.

Lemma regula_falsi_body_return (f : float -> float) (s : float * float)
  (root : float) (r : bool) (x : float) :
  regula_falsi_body f s root = Return_ r x ->
  r = true /\
  x = fst s - f (fst s) * (snd s - fst s) / (f (snd s) - f (fst s)) /\
  (abs (f x) <? tol) || (abs (snd s - fst s) <? tol) = true.
Proof.
  destruct s as [a b]. unfold regula_falsi_body. cbn [fst snd].
  destruct (_ || _) eqn:T.
  - intros E. injection E as <- <-. auto.
  - destruct (0 <? _); discriminate.
Qed.

(** The narrowing step moves the left end only to a point where [f] has
    the strict sign it has at the left end. *)
Lemma narrowing_left_sign (f : float -> float) (a c : float) :
  (0 <? f a * f c) = true ->
  (f c <? 0) = (f a <? 0) /\ (0 <? f c) = (0 <? f a).
Proof.
  intros H. apply mul_pos_signs in H.
  pose proof (neg_pos_excl (f a)) as Xa.
  pose proof (neg_pos_excl (f c)) as Xc.
  destruct (f a <? 0), (0 <? f a), (f c <? 0), (0 <? f c);
    simpl in *; try discriminate; auto.
Qed.

Lemma bisection_body_left_sign (f : float -> float) (a0 : float)
  (s : float * float) (root : float) (s' : float * float) (root' : float) :
  left_sign_kept f a0 s -> bisection_body f s root = Next s' root' ->
  left_sign_kept f a0 s'.
Proof.
  destruct s as [a b]. unfold left_sign_kept, bisection_body. cbn [fst].
  intros [Hn Hp].
  destruct ((abs (f ((a + b) / 2)) <? tol) || (abs (b - a) <? tol));
    [intros E; discriminate E|].
  destruct (0 <? f a * f ((a + b) / 2)) eqn:P; intros E; injection E as <- _;
    cbn [fst]; [| auto].
  destruct (narrowing_left_sign f a _ P) as [-> ->]. auto.
Qed.

Lemma regula_falsi_body_left_sign (f : float -> float) (a0 : float)
  (s : float * float) (root : float) (s' : float * float) (root' : float) :
  left_sign_kept f a0 s -> regula_falsi_body f s root = Next s' root' ->
  left_sign_kept f a0 s'.
Proof.
  destruct s as [a b]. unfold left_sign_kept, regula_falsi_body. cbn [fst].
  intros [Hn Hp].
  set (c := a - f a * (b - a) / (f b - f a)).
  destruct ((abs (f c) <? tol) || (abs (b - a) <? tol));
    [intros E; discriminate E|].
  destruct (0 <? f a * f c) eqn:P; intros E; injection E as <- _;
    cbn [fst]; [| auto].
  destruct (narrowing_left_sign f a _ P) as [-> ->]. auto.
Qed.

(** X1.  A root that [bisection] returns is an endpoint where [f] is
    exactly zero, no iteration made, or it comes from the loop of a call
    that passed the three checks: after [n = k + 1] iterations, at most
    1,000,000, it is the midpoint of the bracket that [k] narrowing steps
    make of [(a, b)], none of the [k] brackets before it passed a stop
    test, and at that bracket [|f(root)| < 1e-6] or its width is below
    [1e-6].  At the left end of that bracket [f] has the strict sign it has
    at [a]: the loop moves the left end only to points where
    [f(a) * f(c) > 0]. *)
Theorem bisection_success (f : float -> float) (a b root x : float) (n : Z) :
  bisection f a b root = Some (mkResult true x n) ->
  (n = 0%Z /\
   (((f a =? 0) = true /\ x = a) \/
    ((f a =? 0) = false /\ (f b =? 0) = true /\ x = b))) \/
  ((1 <= n <= 1000000)%Z /\
   (f a =? 0) = false /\ (f b =? 0) = false /\ (0 <? f a * f b) = false /\
   exists k : nat,
     n = (Z.of_nat k + 1)%Z /\
     goes_on_for (bisection_narrow f) (fun s => negb (bisection_stops f s))
       k (a, b) = true /\
     bisection_stops f (after (bisection_narrow f) k (a, b)) = true /\
     x = midpoint (after (bisection_narrow f) k (a, b)) /\
     left_sign_kept f a (after (bisection_narrow f) k (a, b))).
Proof.
  unfold bisection, bisection_fuel.
  destruct (f a =? 0); [intros E; injection E as <- <-; left; auto|].
  destruct (f b =? 0); [intros E; injection E as <- <-; left; auto|].
  destruct (0 <? f a * f b); [discriminate|].
  intros E. right.
  apply (loop_then_false_trace (bisection_body f) (bisection_narrow f)
           (fun s => negb (bisection_stops f s)) (bisection_body_goes_on f)
           (bracketing_body_halts _ _ _ (bisection_body_stops f))) in E.
  cbn [ret root_after iterations] in E.
  destruct E as (k & G & [(Hs & B & Hn & Hk) | [? _]]); [| discriminate].
  apply negb_false_iff in Hs.
  rewrite (bisection_body_stops f _ root Hs) in B. injection B as <-.
  unfold max_count in Hk. repeat split; try lia.
  exists k. repeat split; auto.
  - refine (proj1 (after_invariant (bisection_narrow f)
                     (fun s => negb (bisection_stops f s))
                     (left_sign_kept f a) _ k (a, b) _ G)).
    + intros s HI Gs.
      exact (bisection_body_left_sign f a s root _ root HI
               (bisection_body_goes_on f s root Gs)).
    + split; reflexivity.
  - refine (proj2 (after_invariant (bisection_narrow f)
                     (fun s => negb (bisection_stops f s))
                     (left_sign_kept f a) _ k (a, b) _ G)).
    + intros s HI Gs.
      exact (bisection_body_left_sign f a s root _ root HI
               (bisection_body_goes_on f s root Gs)).
    + split; reflexivity.
Qed.

(** [x * x - 2] over [(0, 2)]: 22 iterations. *)
Lemma bisection_success_witness :
  ((22 = 0)%Z /\
   (((sq2 0 =? 0) = true /\ 1.4142136573791504 = 0) \/
    ((sq2 0 =? 0) = false /\ (sq2 2 =? 0) = true /\ 1.4142136573791504 = 2))) \/
  ((1 <= 22 <= 1000000)%Z /\
   (sq2 0 =? 0) = false /\ (sq2 2 =? 0) = false /\ (0 <? sq2 0 * sq2 2) = false /\
   exists k : nat,
     22%Z = (Z.of_nat k + 1)%Z /\
     goes_on_for (bisection_narrow sq2) (fun s => negb (bisection_stops sq2 s))
       k (0, 2) = true /\
     bisection_stops sq2 (after (bisection_narrow sq2) k (0, 2)) = true /\
     1.4142136573791504 = midpoint (after (bisection_narrow sq2) k (0, 2)) /\
     left_sign_kept sq2 0 (after (bisection_narrow sq2) k (0, 2))).
Proof.
  apply (bisection_success sq2 0 2 7). vm_compute. reflexivity.
Defined.

(** X2.  A root that [regula_falsi] returns comes from the loop of a call
    whose product [f(a) * f(b)] was not [>= 0]: after [n = k + 1]
    iterations, at most 1,000,000, it is the false-position point of the
    bracket that [k] narrowing steps make of [(a, b)], none of the [k]
    brackets before it passed a stop test, and at that bracket
    [|f(root)| < 1e-6] or its width is below [1e-6].  At the left end of
    that bracket [f] has the strict sign it has at [a]. *)
Theorem regula_falsi_success (f : float -> float) (a b root x : float) (n : Z) :
  regula_falsi f a b root = Some (mkResult true x n) ->
  (1 <= n <= 1000000)%Z /\
  (0 <=? f a * f b) = false /\
  exists k : nat,
    n = (Z.of_nat k + 1)%Z /\
    goes_on_for (regula_falsi_narrow f)
      (fun s => negb (regula_falsi_stops f s)) k (a, b) = true /\
    regula_falsi_stops f (after (regula_falsi_narrow f) k (a, b)) = true /\
    x = false_position f (after (regula_falsi_narrow f) k (a, b)) /\
    left_sign_kept f a (after (regula_falsi_narrow f) k (a, b)).
Proof.
  unfold regula_falsi, regula_falsi_fuel.
  destruct (0 <=? f a * f b); [discriminate|].
  intros E.
  apply (loop_then_false_trace (regula_falsi_body f) (regula_falsi_narrow f)
           (fun s => negb (regula_falsi_stops f s))
           (regula_falsi_body_goes_on f)
           (bracketing_body_halts _ _ _ (regula_falsi_body_stops f))) in E.
  cbn [ret root_after iterations] in E.
  destruct E as (k & G & [(Hs & B & Hn & Hk) | [? _]]); [| discriminate].
  apply negb_false_iff in Hs.
  rewrite (regula_falsi_body_stops f _ root Hs) in B. injection B as <-.
  unfold max_count in Hk. repeat split; try lia.
  exists k. repeat split; auto.
  - refine (proj1 (after_invariant (regula_falsi_narrow f)
                     (fun s => negb (regula_falsi_stops f s))
                     (left_sign_kept f a) _ k (a, b) _ G)).
    + intros s HI Gs.
      exact (regula_falsi_body_left_sign f a s root _ root HI
               (regula_falsi_body_goes_on f s root Gs)).
    + split; reflexivity.
  - refine (proj2 (after_invariant (regula_falsi_narrow f)
                     (fun s => negb (regula_falsi_stops f s))
                     (left_sign_kept f a) _ k (a, b) _ G)).
    + intros s HI Gs.
      exact (regula_falsi_body_left_sign f a s root _ root HI
               (regula_falsi_body_goes_on f s root Gs)).
    + split; reflexivity.
Qed.

(** [x * x - 2] over [(0, 2)]: 10 iterations. *)
Lemma regula_falsi_success_witness :
  (1 <= 10 <= 1000000)%Z /\
  (0 <=? sq2 0 * sq2 2) = false /\
  exists k : nat,
    10%Z = (Z.of_nat k + 1)%Z /\
    goes_on_for (regula_falsi_narrow sq2)
      (fun s => negb (regula_falsi_stops sq2 s)) k (0, 2) = true /\
    regula_falsi_stops sq2 (after (regula_falsi_narrow sq2) k (0, 2)) = true /\
    1.4142134998513232
    = false_position sq2 (after (regula_falsi_narrow sq2) k (0, 2)) /\
    left_sign_kept sq2 0 (after (regula_falsi_narrow sq2) k (0, 2)).
Proof.
  apply (regula_falsi_success sq2 0 2 7). vm_compute. reflexivity.
Defined.

(** X3.  The loops of [bisection] and of [regula_falsi] never return
    [false]: a call that fails either refused the bracket before the loop,
    no iteration made, or ran all of its 1,000,000 iterations. *)
Theorem bracketing_failure (f : float -> float) (a b root : float) (r : result) :
  ret r = false ->
  (bisection f a b root = Some r ->
   (iterations r = 0%Z /\ (0 <? f a * f b) = true) \/
   iterations r = 1000000%Z) /\
  (regula_falsi f a b root = Some r ->
   (iterations r = 0%Z /\ (0 <=? f a * f b) = true) \/
   iterations r = 1000000%Z).
Proof.
  intros Hr. split.
  - unfold bisection, bisection_fuel.
    destruct (f a =? 0); [intros E; injection E as <-; discriminate|].
    destruct (f b =? 0); [intros E; injection E as <-; discriminate|].
    destruct (0 <? f a * f b); [intros E; injection E as <-; left; auto|].
    intros E. right.
    apply (loop_then_false_outcome _ (fun _ => True)) in E; [| auto | exact I].
    destruct E as [(sl & rl & _ & Bl & _) | [_ ->]]; [| reflexivity].
    apply bisection_body_return in Bl. destruct Bl as [Bl _]. congruence.
  - unfold regula_falsi, regula_falsi_fuel.
    destruct (0 <=? f a * f b); [intros E; injection E as <-; left; auto|].
    intros E. right.
    apply (loop_then_false_outcome _ (fun _ => True)) in E; [| auto | exact I].
    destruct E as [(sl & rl & _ & Bl & _) | [_ ->]]; [| reflexivity].
    apply regula_falsi_body_return in Bl. destruct Bl as [Bl _]. congruence.
Qed.

(** A failing run of each: the budget used up in [bisection], a bracket
    refused in [regula_falsi]. *)
Lemma bracketing_failure_witness :
  ((1000000 = 0)%Z /\
   (0 <? step_at 10000000000000002 1e16 * step_at 10000000000000002
                                            10000000000000002) = true \/
   (1000000 = 1000000)%Z) /\
  ((0 = 0)%Z /\ (0 <=? sq2 2 * sq2 3) = true \/ (0 = 1000000)%Z).
Proof.
  assert (E1 : bisection (step_at 10000000000000002) 1e16 10000000000000002 7
               = Some (mkResult false 7 1000000))
    by (vm_compute; reflexivity).
  assert (E2 : regula_falsi sq2 2 3 7 = Some (mkResult false 7 0))
    by (vm_compute; reflexivity).
  split.
  - exact (proj1 (bracketing_failure (step_at 10000000000000002)
                    1e16 10000000000000002 7 (mkResult false 7 1000000)
                    eq_refl) E1).
  - exact (proj2 (bracketing_failure sq2 2 3 7 (mkResult false 7 0) eq_refl)
             E2).
Defined.

(** * What the open methods say of their result *)

Lemma newton_raphson_body_return (f g : float -> float) (a b xn root : float)
  (r : bool) (x : float) :
  newton_raphson_body f g a b xn root = Return_ r x ->
  (r = false /\ x = root /\
   ((abs (g xn) <? tol) = true \/
    ((abs (g xn) <? tol) = false /\
     within a b (xn - f xn / g xn) = false))) \/
  (r = true /\ (abs (g xn) <? tol) = false /\ x = xn - f xn / g xn /\
   within a b x = true /\ (abs (x - xn) <? tol) = true).
Proof.
  unfold newton_raphson_body, newton_raphson_body_with, within.
  destruct (abs (g xn) <? tol).
  { intros E. injection E as <- <-. left. auto. }
  set (next_xn := xn - f xn / g xn).
  destruct ((next_xn <? a) || (b <? next_xn)) eqn:O.
  { intros E. injection E as <- <-. left. auto. }
  destruct (abs (next_xn - xn) <? tol) eqn:T; [| intros E; discriminate E].
  intros E. injection E as <- <-. right. rewrite O. auto.
Qed.

Lemma newton_raphson_body_next (f g : float -> float) (a b xn root : float)
  (s' root' : float) :
  newton_raphson_body f g a b xn root = Next s' root' -> within a b s' = true.
Proof.
  unfold newton_raphson_body, newton_raphson_body_with, within.
  destruct (abs (g xn) <? tol); [intros E; discriminate E|].
  set (next_xn := xn - f xn / g xn).
  destruct ((next_xn <? a) || (b <? next_xn)) eqn:O; [intros E; discriminate E|].
  destruct (abs (next_xn - xn) <? tol); [intros E; discriminate E|].
  intros E. injection E as <- _. rewrite O. reflexivity.
Qed.

Lemma secant_body_return (f : float -> float) (a b : float)
  (s : float * float) (root : float) (r : bool) (x : float) :
  secant_body f a b s root = Return_ r x ->
  let prev_x := fst s in
  let xn := snd s in
  let x_next := xn - f xn * (xn - prev_x) / (f xn - f prev_x) in
  (r = false /\ x = root /\
   ((abs (f xn - f prev_x) <? tol) = true \/
    ((abs (f xn - f prev_x) <? tol) = false /\ within a b x_next = false))) \/
  (r = true /\ (abs (f xn - f prev_x) <? tol) = false /\ x = x_next /\
   within a b x = true /\ (abs (x - xn) <? tol) = true).
Proof.
  destruct s as [prev_x xn].
  unfold secant_body, secant_body_with, within. cbn [fst snd].
  destruct (abs (f xn - f prev_x) <? tol).
  { intros E. injection E as <- <-. left. auto. }
  set (x_next := xn - f xn * (xn - prev_x) / (f xn - f prev_x)).
  destruct ((x_next <? a) || (b <? x_next)) eqn:O.
  { intros E. injection E as <- <-. left. auto. }
  destruct (abs (x_next - xn) <? tol) eqn:T; [| intros E; discriminate E].
  intros E. injection E as <- <-. right. rewrite O. auto.
Qed.

Lemma secant_body_next (f : float -> float) (a b : float)
  (s : float * float) (root : float) (s' : float * float) (root' : float) :
  secant_body f a b s root = Next s' root' ->
  fst s' = snd s /\ within a b (snd s') = true.
Proof.
  destruct s as [prev_x xn].
  unfold secant_body, secant_body_with, within. cbn [fst snd].
  destruct (abs (f xn - f prev_x) <? tol); [intros E; discriminate E|].
  set (x_next := xn - f xn * (xn - prev_x) / (f xn - f prev_x)).
  destruct ((x_next <? a) || (b <? x_next)) eqn:O; [intros E; discriminate E|].
  destruct (abs (x_next - xn) <? tol); [intros E; discriminate E|].
  intros E. injection E as <- _. cbn [fst snd]. rewrite O. auto.
Qed.

(** The last iteration of a call of [newton_raphson] that did not run out
    of budget. *)
Lemma newton_raphson_last (f g : float -> float) (a b c root : float)
  (r : result) :
  newton_raphson f g a b c root = Some r ->
  (exists xn root_last,
      newton_iterate a b c xn /\
      newton_raphson_body f g a b xn root_last
      = Return_ (ret r) (root_after r) /\
      (1 <= iterations r <= 999999)%Z) \/
  (ret r = false /\ iterations r = 999999%Z).
Proof.
  unfold newton_raphson, newton_raphson_fuel. intros E.
  apply (loop_then_false_outcome _ (newton_iterate a b c)) in E.
  - unfold max_count in E. exact E.
  - intros s rt s' rt' _ B. right.
    exact (newton_raphson_body_next _ _ _ _ _ _ _ _ B).
  - left. reflexivity.
Qed.

Lemma secant_last (f : float -> float) (a b c root : float) (r : result) :
  secant f a b c root = Some r ->
  (exists s root_last,
      secant_pair a b s /\
      secant_body f a b s root_last = Return_ (ret r) (root_after r) /\
      (1 <= iterations r <= 1000000)%Z) \/
  (ret r = false /\ iterations r = 1000000%Z).
Proof.
  unfold secant, secant_fuel. intros E.
  apply (loop_then_false_outcome _ (secant_pair a b)) in E.
  - unfold max_count in E. exact E.
  - intros s rt s' rt' _ B. right.
    exact (proj2 (secant_body_next _ _ _ _ _ _ _ B)).
  - left. reflexivity.
Qed.

(** A point that passed the bounds test and the step test is a number, and
    it is between the bounds that are numbers. *)
Lemma within_step_bounds (a b x xn : float) :
  within a b x = true -> (abs (x - xn) <? tol) = true ->
  is_nan x = false /\ (b <? a) = false /\
  (is_nan a = false -> (a <=? x) = true) /\
  (is_nan b = false -> (x <=? b) = true).
Proof.
  unfold within. rewrite negb_true_iff, orb_false_iff.
  intros [Hxa Hbx] Hstep.
  destruct (abs_sub_ltb_numbers _ _ _ Hstep) as [Hx _].
  split; [exact Hx|]. split; [exact (within_not_reversed a b x Hx Hxa Hbx)|].
  split; intros Hn; apply ltb_false_leb; assumption.
Qed.

(** X4.  A root that [newton_raphson] returns, after 1 to 999,999
    iterations, is one step [xn - f(xn) / g(xn)] from an iterate [xn] (the
    guess, or a point that passed the bounds test) where [|g(xn)| < 1e-6]
    is false, and it is less than [1e-6] away from [xn].  It is a number,
    and it is [>= a] and [<= b] for bounds that are numbers. *)
Theorem newton_raphson_success (f g : float -> float) (a b c root x : float)
  (n : Z) :
  newton_raphson f g a b c root = Some (mkResult true x n) ->
  (1 <= n <= 999999)%Z /\
  (exists xn, newton_iterate a b c xn /\ (abs (g xn) <? tol) = false /\
              x = xn - f xn / g xn /\ (abs (x - xn) <? tol) = true) /\
  is_nan x = false /\
  (is_nan a = false -> (a <=? x) = true) /\
  (is_nan b = false -> (x <=? b) = true).
Proof.
  intros E. apply newton_raphson_last in E. cbn [ret root_after iterations] in E.
  destruct E as [(xn & rl & HI & B & Hn) | [? _]]; [| discriminate].
  apply newton_raphson_body_return in B.
  destruct B as [[? _] | (_ & Hg & Hx & Hw & Hs)]; [discriminate|].
  destruct (within_step_bounds a b x xn Hw Hs) as (Nx & _ & La & Lb).
  split; [exact Hn|]. split; [exists xn; auto|]. auto.
Qed.

(** [x * x - 2] with the derivative [2 * x], the bounds [(0, 2)] and the
    guess [1]. *)
Lemma newton_raphson_success_witness :
  (1 <= 5 <= 999999)%Z /\
  (exists xn, newton_iterate 0 2 1 xn /\ (abs (2 * xn) <? tol) = false /\
              1.4142135623730951 = xn - sq2 xn / (2 * xn) /\
              (abs (1.4142135623730951 - xn) <? tol) = true) /\
  is_nan 1.4142135623730951 = false /\
  (is_nan 0 = false -> (0 <=? 1.4142135623730951) = true) /\
  (is_nan 2 = false -> (1.4142135623730951 <=? 2) = true).
Proof.
  apply (newton_raphson_success sq2 (fun x => 2 * x) 0 2 1 7).
  vm_compute. reflexivity.
Defined.

(** X5.  A root that [secant] returns, after 1 to 1,000,000 iterations, is
    one secant step from a pair [(prev_x, xn)] (the pair of the bounds, or
    one whose current point passed the bounds test) where
    [|f(xn) - f(prev_x)| < 1e-6] is false, and it is less than [1e-6] away
    from [xn].  It is a number, and it is [>= a] and [<= b] for bounds that
    are numbers. *)
Theorem secant_success (f : float -> float) (a b c root x : float) (n : Z) :
  secant f a b c root = Some (mkResult true x n) ->
  (1 <= n <= 1000000)%Z /\
  (exists prev_x xn,
      secant_pair a b (prev_x, xn) /\
      (abs (f xn - f prev_x) <? tol) = false /\
      x = xn - f xn * (xn - prev_x) / (f xn - f prev_x) /\
      (abs (x - xn) <? tol) = true) /\
  is_nan x = false /\
  (is_nan a = false -> (a <=? x) = true) /\
  (is_nan b = false -> (x <=? b) = true).
Proof.
  intros E. apply secant_last in E. cbn [ret root_after iterations] in E.
  destruct E as [([prev_x xn] & rl & HI & B & Hn) | [? _]]; [| discriminate].
  apply secant_body_return in B. cbn [fst snd] in B.
  destruct B as [[? _] | (_ & Hg & Hx & Hw & Hs)]; [discriminate|].
  destruct (within_step_bounds a b x xn Hw Hs) as (Nx & _ & La & Lb).
  split; [exact Hn|]. split; [exists prev_x, xn; auto|]. auto.
Qed.

(** [x * x - 2] from the points [1] and [2]. *)
Lemma secant_success_witness :
  (1 <= 6 <= 1000000)%Z /\
  (exists prev_x xn,
      secant_pair 1 2 (prev_x, xn) /\
      (abs (sq2 xn - sq2 prev_x) <? tol) = false /\
      1.4142135623730954
      = xn - sq2 xn * (xn - prev_x) / (sq2 xn - sq2 prev_x) /\
      (abs (1.4142135623730954 - xn) <? tol) = true) /\
  is_nan 1.4142135623730954 = false /\
  (is_nan 1 = false -> (1 <=? 1.4142135623730954) = true) /\
  (is_nan 2 = false -> (1.4142135623730954 <=? 2) = true).
Proof.
  apply (secant_success sq2 1 2 0 7). vm_compute. reflexivity.
Defined.

(** X6.  A call of [newton_raphson] or of [secant] that returns [false]
    ran its iterates as far as a guard: for some [k], the first [k]
    iterations went on, and either the call made [k + 1] iterations and at
    the iterate it had then reached the denominator was below [1e-6] in
    absolute value or the step left the bounds, or [k] is the whole budget
    (999,999 iterations for [newton_raphson], 1,000,000 for [secant]) and
    the call made [k] iterations. *)
Theorem open_method_failure (f g : float -> float) (a b c root : float)
  (r : result) :
  ret r = false ->
  (newton_raphson f g a b c root = Some r ->
   exists k : nat,
     goes_on_for (newton_step f g) (newton_goes_on f g a b) k c = true /\
     ((iterations r = (Z.of_nat k + 1)%Z /\ (Z.of_nat k + 1 <= 999999)%Z /\
       let x_k := after (newton_step f g) k c in
       ((abs (g x_k) <? tol) = true \/
        ((abs (g x_k) <? tol) = false /\
         within a b (newton_step f g x_k) = false))) \/
      (iterations r = 999999%Z /\ Z.of_nat k = 999999%Z))) /\
  (secant f a b c root = Some r ->
   exists k : nat,
     goes_on_for (secant_advance f) (secant_goes_on f a b) k (a, b) = true /\
     ((iterations r = (Z.of_nat k + 1)%Z /\ (Z.of_nat k + 1 <= 1000000)%Z /\
       let pair_k := after (secant_advance f) k (a, b) in
       ((abs (f (snd pair_k) - f (fst pair_k)) <? tol) = true \/
        ((abs (f (snd pair_k) - f (fst pair_k)) <? tol) = false /\
         within a b (secant_step f pair_k) = false))) \/
      (iterations r = 1000000%Z /\ Z.of_nat k = 1000000%Z))).
Proof.
  intros Hr. split; intros E.
  - unfold newton_raphson, newton_raphson_fuel in E.
    apply (loop_then_false_trace (newton_raphson_body f g a b)
             (newton_step f g) (newton_goes_on f g a b)
             (newton_raphson_body_goes_on f g a b)
             (newton_raphson_body_halts f g a b)) in E.
    destruct E as (k & G & [(_ & B & Hn & Hk) | (_ & _ & Hn & Hk)]);
      exists k; (split; [exact G|]).
    + left. unfold max_count in Hk. split; [exact Hn|]. split; [lia|].
      rewrite Hr in B. apply newton_raphson_body_return in B.
      destruct B as [(_ & _ & H) | [? _]]; [exact H | discriminate].
    + right. unfold max_count in Hk. lia.
  - unfold secant, secant_fuel in E.
    apply (loop_then_false_trace (secant_body f a b)
             (secant_advance f) (secant_goes_on f a b)
             (secant_body_goes_on f a b) (secant_body_halts f a b)) in E.
    destruct E as (k & G & [(_ & B & Hn & Hk) | (_ & _ & Hn & Hk)]);
      exists k; (split; [exact G|]).
    + left. unfold max_count in Hk. split; [exact Hn|]. split; [lia|].
      rewrite Hr in B. apply secant_body_return in B.
      destruct (after (secant_advance f) k (a, b)) as [p x].
      destruct B as [(_ & _ & H) | [? _]]; [exact H | discriminate].
    + right. unfold max_count in Hk. lia.
Qed.

(** [newton_raphson] on [x * x - 2] with the bounds [(0, 1.25)] leaves
    them in its first step; [secant] on the constant [1] has a flat
    secant. *)
Lemma open_method_failure_witness :
  (exists k : nat,
     goes_on_for (newton_step sq2 (fun x => 2 * x))
       (newton_goes_on sq2 (fun x => 2 * x) 0 1.25) k 1 = true /\
     ((1%Z = (Z.of_nat k + 1)%Z /\ (Z.of_nat k + 1 <= 999999)%Z /\
       let x_k := after (newton_step sq2 (fun x => 2 * x)) k 1 in
       ((abs (2 * x_k) <? tol) = true \/
        ((abs (2 * x_k) <? tol) = false /\
         within 0 1.25 (newton_step sq2 (fun x => 2 * x) x_k) = false))) \/
      (1%Z = 999999%Z /\ Z.of_nat k = 999999%Z))) /\
  (exists k : nat,
     goes_on_for (secant_advance (fun _ => 1)) (secant_goes_on (fun _ => 1) 1 2)
       k (1, 2) = true /\
     ((1%Z = (Z.of_nat k + 1)%Z /\ (Z.of_nat k + 1 <= 1000000)%Z /\
       let pair_k := after (secant_advance (fun _ => 1)) k (1, 2) in
       ((abs (1 - 1) <? tol) = true \/
        ((abs (1 - 1) <? tol) = false /\
         within 1 2 (secant_step (fun _ => 1) pair_k) = false))) \/
      (1%Z = 1000000%Z /\ Z.of_nat k = 1000000%Z))).
Proof.
  assert (E1 : newton_raphson sq2 (fun x => 2 * x) 0 1.25 1 7
               = Some (mkResult false 7 1)) by (vm_compute; reflexivity).
  assert (E2 : secant (fun _ => 1) 1 2 0 7 = Some (mkResult false 7 1))
    by (vm_compute; reflexivity).
  split.
  - exact (proj1 (open_method_failure sq2 (fun x => 2 * x) 0 1.25 1 7
                    (mkResult false 7 1) eq_refl) E1).
  - exact (proj2 (open_method_failure (fun _ => 1) (fun x => x) 1 2 0 7
                    (mkResult false 7 1) eq_refl) E2).
Defined.

(** X7.  With bounds in the wrong order, [b < a], no point passes the
    bounds test: [newton_raphson] and [secant] return, and they return
    [false] with the cell untouched, whatever the functions and the guess
    are. *)
Theorem reversed_bounds_fail (f g : float -> float) (a b c root : float) :
  (b <? a) = true ->
  (exists r, newton_raphson f g a b c root = Some r /\
             ret r = false /\ root_after r = root) /\
  (exists r, secant f a b c root = Some r /\
             ret r = false /\ root_after r = root).
Proof.
  intros Hba. split.
  - destruct (loop_then_false_budget (newton_raphson_body f g a b) 1 c root)
      as (r & E & _); [lia|].
    fold (newton_raphson_fuel enough_fuel f g a b c root) in E.
    fold (newton_raphson f g a b c root) in E.
    exists r. split; [exact E|].
    assert (Hr : ret r = false).
    { destruct (ret r) eqn:R; [| reflexivity]. exfalso.
      pose proof E as E'. apply newton_raphson_last in E'.
      destruct E' as [(xn & rl & _ & B & _) | [? _]]; [| congruence].
      rewrite R in B. apply newton_raphson_body_return in B.
      destruct B as [[? _] | (_ & _ & _ & Hw & Hs)]; [discriminate|].
      destruct (within_step_bounds a b _ xn Hw Hs) as (_ & N & _).
      congruence. }
    split; [exact Hr|].
    exact (loop_then_false_frame _ (newton_raphson_body_frame _ f g a b)
             _ _ _ _ _ E Hr).
  - destruct (loop_then_false_budget (secant_body f a b) 0 (a, b) root)
      as (r & E & _); [lia|].
    fold (secant_fuel enough_fuel f a b c root) in E.
    fold (secant f a b c root) in E.
    exists r. split; [exact E|].
    assert (Hr : ret r = false).
    { destruct (ret r) eqn:R; [| reflexivity]. exfalso.
      pose proof E as E'. apply secant_last in E'.
      destruct E' as [(s & rl & _ & B & _) | [? _]]; [| congruence].
      rewrite R in B. apply secant_body_return in B.
      destruct B as [[? _] | (_ & _ & _ & Hw & Hs)]; [discriminate|].
      destruct (within_step_bounds a b _ (snd s) Hw Hs) as (_ & N & _).
      congruence. }
    split; [exact Hr|].
    exact (loop_then_false_frame _ (secant_body_frame _ f a b) _ _ _ _ _ E Hr).
Qed.

(** The bounds [(2, 1)] around the square root of two. *)
Lemma reversed_bounds_fail_witness :
  (exists r, newton_raphson sq2 (fun x => 2 * x) 2 1 1.5 7 = Some r /\
             ret r = false /\ root_after r = 7) /\
  (exists r, secant sq2 2 1 1.5 7 = Some r /\
             ret r = false /\ root_after r = 7).
Proof.
  exact (reversed_bounds_fail sq2 (fun x => 2 * x) 2 1 1.5 7 eq_refl).
Defined.

(** * Exact steps: zero numerators and equal values *)

Section ExactSteps.

Lemma Prim2SF_tol : Prim2SF tol = S754_finite false 4722366482869645 (-72).
Proof. reflexivity. Qed.

Lemma is_finite_SFfin (x : float) : is_finite x = true -> SFfin (Prim2SF x) = true.
Proof.
  intros H. apply is_finite_view in H.
  destruct (Prim2SF x); try contradiction; reflexivity.
Qed.

Lemma SFeqb_refl (x : spec_float) : SFkey x <> None -> SFeqb x x = true.
Proof.
  intros K. unfold SFeqb. rewrite SFcompare_key.
  destruct (SFkey x) as [k |]; [| contradiction].
  pose proof (lex3_spec k k) as H. pose proof (key_lt_irrefl k) as I.
  destruct (lex3 k k); try contradiction; reflexivity.
Qed.

Lemma SFfin_is_finite (x : float) : SFfin (Prim2SF x) = true -> is_finite x = true.
Proof.
  unfold is_finite, is_nan, is_infinity. rewrite !eqb_spec, abs_spec.
  destruct (Prim2SF x) as [s | s | | s m e]; try discriminate; intros _.
  - reflexivity.
  - rewrite SFeqb_refl by (destruct s; discriminate). reflexivity.
Qed.

(** Equal finite values have a zero difference. *)
Lemma SFsub_equal (x y : spec_float) :
  SFfin x = true -> SFeqb x y = true -> SFzero (SF64sub x y) = true.
Proof.
  unfold SFeqb. intros Hx H.
  destruct x as [sx | sx | | sx mx ex]; try discriminate;
    destruct y as [sy | sy | | sy my ey]; try discriminate;
    try (destruct sx; discriminate); try (destruct sy; discriminate).
  - destruct sx, sy; reflexivity.
  - assert (sx = sy /\ ex = ey /\ mx = my) as (-> & -> & ->).
    { cbn [SFcompare] in H. destruct sx, sy; try discriminate;
        destruct (Z.compare_spec ex ey); try discriminate;
        destruct (Pos.compare_spec mx my); try discriminate; auto;
        (rewrite Pos.compare_cont_spec in H;
         destruct (Pos.compare_spec mx my); try discriminate; auto;
         subst; lia). }
    unfold SF64sub, SFsub. rewrite Z.sub_diag. reflexivity.
Qed.

Lemma sub_equal_small (x y : float) :
  is_finite x = true -> (x =? y) = true -> (abs (x - y) <? tol) = true.
Proof.
  intros Hx H. apply is_finite_SFfin in Hx. rewrite eqb_spec in H.
  pose proof (SFsub_equal _ _ Hx H) as Z0.
  rewrite ltb_spec, abs_spec, sub_spec, Prim2SF_tol.
  destruct (SF64sub (Prim2SF x) (Prim2SF y)); try discriminate. reflexivity.
Qed.

(** A zero over a number that is not zero is a zero; a finite [x] less a
    zero is [x], up to the sign of a zero. *)
Lemma step_from_root (x fx gx : float) :
  is_finite x = true -> (fx =? 0) = true ->
  is_nan gx = false -> (abs gx <? tol) = false ->
  SFkey (Prim2SF (x - fx / gx)) = SFkey (Prim2SF x) /\
  SFfin (Prim2SF (x - fx / gx)) = true.
Proof.
  intros Hx Hf Hn Hg. apply is_finite_SFfin in Hx.
  rewrite eqb_zero in Hf. apply is_nan_key in Hn. destruct Hn as [k Hk].
  rewrite ltb_spec, abs_spec, Prim2SF_tol in Hg.
  rewrite sub_spec, div_spec.
  destruct (Prim2SF fx) as [sf | sf | | sf mf ef]; try discriminate.
  destruct (Prim2SF gx) as [sg | sg | | sg mg eg]; try discriminate;
    destruct (Prim2SF x) as [sx | sx | | sx mx ex]; try discriminate;
    cbn [SF64div SFdiv SF64sub SFsub]; compute; try destruct sx; try destruct sf; try destruct sg; auto.
Qed.

End ExactSteps.

(** Keys decide the comparisons: doubles with one key compare alike. *)
Lemma ltb_same_key (x x' y : float) :
  SFkey (Prim2SF x') = SFkey (Prim2SF x) ->
  (x' <? y) = (x <? y) /\ (y <? x') = (y <? x).
Proof.
  intros K. rewrite !ltb_spec. unfold SFltb. rewrite !SFcompare_key, K. auto.
Qed.

Lemma eqb_same_key (x x' : float) :
  SFkey (Prim2SF x') = SFkey (Prim2SF x) -> SFfin (Prim2SF x) = true ->
  (x' =? x) = true.
Proof.
  intros K F. rewrite eqb_spec. unfold SFeqb. rewrite SFcompare_key, K.
  destruct (SFkey (Prim2SF x)) as [k |] eqn:Kx.
  - pose proof (lex3_spec k k) as H. pose proof (key_lt_irrefl k) as I.
    destruct (lex3 k k); try contradiction; reflexivity.
  - destruct (Prim2SF x) as [s | s | | s m e]; try destruct s; discriminate.
Qed.

(** X8.  A guess that is a zero of [f] is returned at once: when
    [f(c) == 0], the guess [c] is finite and passes the bounds test, and
    [g(c)] is a number that the derivative guard lets through,
    [newton_raphson] returns [true] in its first iteration with a root equal
    to [c]. *)
Theorem newton_raphson_root_guess (f g : float -> float) (a b c root : float) :
  (f c =? 0) = true ->
  is_finite c = true -> within a b c = true ->
  is_nan (g c) = false -> (abs (g c) <? tol) = false ->
  newton_raphson f g a b c root
  = Some (mkResult true (c - f c / g c) 1) /\
  (c - f c / g c =? c) = true.
Proof.
  intros Hf Hc Hw Hn Hg.
  destruct (step_from_root c (f c) (g c) Hc Hf Hn Hg) as [K F].
  set (x := c - f c / g c) in *.
  assert (Heq : (x =? c) = true)
    by exact (eqb_same_key c x K (is_finite_SFfin c Hc)).
  split; [| exact Heq].
  apply (loop_then_false_more_fuel _ 1);
    [| unfold enough_fuel, max_count; lia].
  unfold loop_then_false. rewrite for_loop_turn by reflexivity.
  unfold newton_raphson_body, newton_raphson_body_with. rewrite Hg. fold x.
  destruct (ltb_same_key c x a K) as [-> _].
  destruct (ltb_same_key c x b K) as [_ ->].
  unfold within in Hw. apply negb_true_iff in Hw. rewrite Hw.
  assert (Fx : is_finite x = true) by exact (SFfin_is_finite x F).
  rewrite (sub_equal_small x c Fx Heq). reflexivity.
Qed.

(** [f(x) = x - 1.5] with the derivative [1], the bounds [(0, 2)] and the
    guess [1.5]. *)
Lemma newton_raphson_root_guess_witness :
  newton_raphson (fun x => x - 1.5) (fun _ => 1) 0 2 1.5 7
  = Some (mkResult true (1.5 - (1.5 - 1.5) / 1) 1) /\
  (1.5 - (1.5 - 1.5) / 1 =? 1.5) = true.
Proof.
  exact (newton_raphson_root_guess (fun x => x - 1.5) (fun _ => 1) 0 2 1.5 7
           eq_refl eq_refl eq_refl eq_refl eq_refl).
Defined.

(** X9.  [secant] fails in its first iteration, the cell untouched, when
    [f] takes equal finite values at its two starting points [a] and [b]:
    the difference [f(b) - f(a)] is a zero. *)
Theorem secant_equal_values (f : float -> float) (a b c root : float) :
  is_finite (f b) = true -> (f b =? f a) = true ->
  secant f a b c root = Some (mkResult false root 1).
Proof.
  intros Hb He.
  apply (loop_then_false_more_fuel _ 1);
    [| unfold enough_fuel, max_count; lia].
  unfold loop_then_false. rewrite for_loop_turn by reflexivity.
  unfold secant_body, secant_body_with.
  rewrite (sub_equal_small (f b) (f a) Hb He). reflexivity.
Qed.

(** [x * x - 2] from the points [-2] and [2], where it is [2]. *)
Lemma secant_equal_values_witness :
  secant sq2 (-2) 2 0 7 = Some (mkResult false 7 1).
Proof.
  exact (secant_equal_values sq2 (-2) 2 0 7 eq_refl eq_refl).
Defined.

(** * Starting points that are not numbers *)

Lemma is_nan_view (x : float) : is_nan x = true <-> Prim2SF x = S754_nan.
Proof.
  split.
  - intros H. destruct (Prim2SF x) as [s | s | | s m e] eqn:V; try reflexivity;
      exfalso;
      (assert (N : is_nan x = false)
        by (apply is_nan_key; rewrite V; destruct s; eexists; reflexivity));
      congruence.
  - intros V. destruct (is_nan x) eqn:N; [reflexivity|].
    apply is_nan_key in N. destruct N as [k K]. rewrite V in K. discriminate.
Qed.

(** NaN goes through a subtraction, a product and a quotient. *)
Lemma nan_propagates (x y : float) :
  is_nan x = true \/ is_nan y = true ->
  is_nan (x - y) = true /\ is_nan (x * y) = true /\ is_nan (x / y) = true.
Proof.
  rewrite !is_nan_view, sub_spec, mul_spec, div_spec.
  intros [-> | ->]; destruct (Prim2SF x), (Prim2SF y); auto.
Qed.

(** X10.  A starting point that is NaN never gives a root: with a guess
    [c] that is NaN, [newton_raphson] returns [false], and so does [secant]
    when [a] or [b] is NaN; the cell is left untouched. *)
Theorem nan_start_fails (f g : float -> float) (a b c root : float) :
  (is_nan c = true ->
   exists r, newton_raphson f g a b c root = Some r /\
             ret r = false /\ root_after r = root) /\
  (is_nan a = true \/ is_nan b = true ->
   exists r, secant f a b c root = Some r /\
             ret r = false /\ root_after r = root).
Proof.
  split.
  - intros Hc.
    destruct (loop_then_false_budget (newton_raphson_body f g a b) 1 c root)
      as (r & E & _); [lia|].
    exists r. split; [exact E|].
    assert (Hr : ret r = false).
    { destruct (ret r) eqn:R; [| reflexivity]. exfalso.
      apply (loop_then_false_outcome _ (fun xn => is_nan xn = true)) in E;
        [| | exact Hc].
      - destruct E as [(xn & rl & HI & B & _) | [? _]]; [| congruence].
        rewrite R in B. apply newton_raphson_body_return in B.
        destruct B as [[? _] | (_ & _ & _ & _ & Hs)]; [discriminate|].
        destruct (abs_sub_ltb_numbers _ _ _ Hs) as [_ N]. congruence.
      - intros xn rt s' rt' HI B.
        unfold newton_raphson_body, newton_raphson_body_with in B.
        destruct (abs (g xn) <? tol); [discriminate B|].
        destruct (_ || _); [discriminate B|].
        destruct (abs _ <? tol); [discriminate B|].
        injection B as <- _.
        exact (proj1 (nan_propagates xn _ (or_introl HI))). }
    split; [exact Hr|].
    exact (loop_then_false_frame _ (newton_raphson_body_frame _ f g a b)
             _ _ _ _ _ E Hr).
  - intros Hab.
    destruct (loop_then_false_budget (secant_body f a b) 0 (a, b) root)
      as (r & E & _); [lia|].
    exists r. split; [exact E|].
    assert (Hr : ret r = false).
    { destruct (ret r) eqn:R; [| reflexivity]. exfalso.
      apply (loop_then_false_outcome _
               (fun s => is_nan (fst s) = true \/ is_nan (snd s) = true))
        in E; [| | exact Hab].
      - destruct E as [([p x] & rl & HI & B & _) | [? _]]; [| congruence].
        rewrite R in B. apply secant_body_return in B. cbn [fst snd] in *.
        destruct B as [[? _] | (_ & _ & Hx & _ & Hs)]; [discriminate|].
        destruct (abs_sub_ltb_numbers _ _ _ Hs) as [N1 N2].
        assert (Np : is_nan p = true) by (destruct HI; congruence).
        assert (Nd : is_nan (x - p) = true)
          by exact (proj1 (nan_propagates x p (or_intror Np))).
        assert (Nm : is_nan (f x * (x - p)) = true)
          by exact (proj1 (proj2 (nan_propagates (f x) _ (or_intror Nd)))).
        assert (Nq : is_nan (f x * (x - p) / (f x - f p)) = true)
          by exact (proj2 (proj2 (nan_propagates _ (f x - f p) (or_introl Nm)))).
        pose proof (proj1 (nan_propagates x _ (or_intror Nq))) as Nn.
        rewrite <- Hx in Nn. congruence.
      - intros [p x] rt s' rt' HI B. cbn [fst snd] in HI.
        unfold secant_body, secant_body_with in B.
        destruct (abs (f x - f p) <? tol); [discriminate B|].
        destruct (_ || _); [discriminate B|].
        destruct (abs _ <? tol); [discriminate B|].
        injection B as <- _. cbn [fst snd]. right.
        destruct HI as [Np | Nx].
        + assert (Nd : is_nan (x - p) = true)
            by exact (proj1 (nan_propagates x p (or_intror Np))).
          assert (Nm : is_nan (f x * (x - p)) = true)
            by exact (proj1 (proj2 (nan_propagates (f x) _ (or_intror Nd)))).
          assert (Nq : is_nan (f x * (x - p) / (f x - f p)) = true)
            by exact (proj2 (proj2
                        (nan_propagates _ (f x - f p) (or_introl Nm)))).
          exact (proj1 (nan_propagates x _ (or_intror Nq))).
        + exact (proj1 (nan_propagates x _ (or_introl Nx))). }
    split; [exact Hr|].
    exact (loop_then_false_frame _ (secant_body_frame _ f a b) _ _ _ _ _ E Hr).
Qed.

(** The guess [nan] for [newton_raphson] and the starting point [nan] for
    [secant], on [x * x - 2]. *)
Lemma nan_start_fails_witness :
  (exists r, newton_raphson sq2 (fun x => 2 * x) 0 2 nan 7 = Some r /\
             ret r = false /\ root_after r = 7) /\
  (exists r, secant sq2 nan 2 0 7 = Some r /\
             ret r = false /\ root_after r = 7).
Proof.
  split.
  - exact (proj1 (nan_start_fails sq2 (fun x => 2 * x) 0 2 nan 7) eq_refl).
  - exact (proj2 (nan_start_fails sq2 (fun x => 2 * x) nan 2 0 7)
             (or_introl eq_refl)).
Defined.

(** * Endpoint values that are not numbers *)

(** No comparison holds of NaN. *)
Lemma nan_compares_false (p : float) :
  is_nan p = true -> (0 <? p) = false /\ (0 <=? p) = false /\ (p =? 0) = false.
Proof.
  rewrite is_nan_view, ltb_spec, leb_spec, eqb_spec. intros ->. auto.
Qed.

(** X11.  A bracket where [f] is NaN at an endpoint is not refused: the
    product [f(a) * f(b)] is NaN, which is neither [> 0] nor [>= 0].
    [regula_falsi] then enters its loop and runs at least one iteration, and
    so does [bisection] unless the value at the other endpoint is exactly
    zero. *)
Theorem nan_endpoint_not_refused (f : float -> float) (a b root : float)
  (r : result) :
  is_nan (f a) = true \/ is_nan (f b) = true ->
  (regula_falsi f a b root = Some r -> (1 <= iterations r)%Z) /\
  (bisection f a b root = Some r ->
   (1 <= iterations r)%Z \/
   (ret r = true /\ iterations r = 0%Z /\
    (((f a =? 0) = true /\ root_after r = a) \/
     ((f b =? 0) = true /\ root_after r = b)))).
Proof.
  intros Hn.
  assert (Hp : is_nan (f a * f b) = true)
    by exact (proj1 (proj2 (nan_propagates (f a) (f b) Hn))).
  destruct (nan_compares_false _ Hp) as (Hlt & Hle & _).
  assert (Hloop : forall (body : float * float -> float -> flow (float * float)),
             loop_then_false body enough_fuel 0 (a, b) root = Some r ->
             (1 <= iterations r)%Z).
  { intros body E.
    apply (loop_then_false_outcome _ (fun _ => True)) in E; [| auto | exact I].
    unfold max_count in E.
    destruct E as [(_ & _ & _ & _ & Hi) | [_ Hi]]; lia. }
  split.
  - unfold regula_falsi, regula_falsi_fuel. rewrite Hle. apply Hloop.
  - unfold bisection, bisection_fuel.
    destruct (f a =? 0) eqn:Za;
      [intros E; injection E as <-; right; cbn; auto|].
    destruct (f b =? 0) eqn:Zb;
      [intros E; injection E as <-; right; cbn; auto|].
    rewrite Hlt. intros E. left. exact (Hloop _ E).
Qed.

(** [sqrt (x - 1)] over [(0, 2)] is NaN at [0]: [regula_falsi] runs its
    whole budget, and [bisection] stops at its first midpoint. *)
Lemma nan_endpoint_not_refused_witness :
  (1 <= 1000000)%Z /\
  ((1 <= 1)%Z \/
   (true = true /\ (1 = 0)%Z /\
    (((sqrt (0 - 1) =? 0) = true /\ 1 = 0) \/
     ((sqrt (2 - 1) =? 0) = true /\ 1 = 2)))).
Proof.
  assert (E1 : regula_falsi (fun x => sqrt (x - 1)) 0 2 7
               = Some (mkResult false 7 1000000)) by (vm_compute; reflexivity).
  assert (E2 : bisection (fun x => sqrt (x - 1)) 0 2 7
               = Some (mkResult true 1 1))
    by (vm_compute; reflexivity).
  split.
  - exact (proj1 (nan_endpoint_not_refused (fun x => sqrt (x - 1)) 0 2 7
                    (mkResult false 7 1000000) (or_introl eq_refl)) E1).
  - exact (proj2 (nan_endpoint_not_refused (fun x => sqrt (x - 1)) 0 2 7
                    (mkResult true 1 1) (or_introl eq_refl))
             E2).
Defined.
